(** * Multi-stage test step (pkg/steps/multi_stage.go)

    A shallow embedding of the step-execution engine of the multi-stage
    test: credential naming, the workload builder ([generatePods] and its
    injectors), the prerequisite computation ([Requires]), access
    provisioning ([createSecret], [createCredentials], [setupRBAC]) and the
    phase runner ([run], [runSteps], [runPods], [runPod]).

    Go values are modelled as follows.
    - [string] is Rocq's [string]; [fmt.Sprintf] is written out as
      concatenation.
    - A Go [map[string]string] that may be nil is an
      [option (gmap string string)]; writing to a nil map panics.
    - A slice is a [list]; [append] is [++]; indexing out of range panics.
    - [error] is the inductive type [error]; a nil error is [None].
    - A panic is the outcome [Panics] of the type [exec].
    - Calls to the cluster are threaded through an explicit [World]: the
      state of the collaborators, the log of the calls made so far and the
      sub-test records of the step. *)

From stdpp Require Import base strings gmap list pretty.

Open Scope string_scope.
Open Scope list_scope.
Open Scope stdpp_scope.

(* stdpp blocks the unfolding of string concatenation; the proofs below
   compute with concrete prefixes, so allow it when the head is known. *)
#[local] Arguments String.append !_ _ / : simpl nomatch.

(** ** Strings *)

Module Str.

(** The double quote character, and the line feed. *)
Definition dquote : string :=
  String (Ascii.Ascii false true false false false true false false) EmptyString.
Definition nl : string :=
  String (Ascii.Ascii false true false true false false false false) EmptyString.

Definition hyphen : Ascii.ascii := Ascii.Ascii true false true true false true false false.
Definition underscore : Ascii.ascii := Ascii.Ascii true true true true true false true false.

(** [fmt.Sprintf("%q", s)] for a string without characters to escape. *)
Definition quote (s : string) : string := dquote +:+ s +:+ dquote.

(** [strings.HasPrefix(s, p)] *)
Definition HasPrefix (s p : string) : bool := String.prefix p s.

(** [strings.TrimPrefix(s, p)]: [s] without the leading [p], or [s]
    itself when [p] is not a prefix. *)
Fixpoint dropPrefix (s p : string) {struct p} : option string :=
  match p with
  | EmptyString => Some s
  | String b p' =>
      match s with
      | EmptyString => None
      | String a s' => if Ascii.eqb a b then dropPrefix s' p' else None
      end
  end.

Definition TrimPrefix (s p : string) : string :=
  match dropPrefix s p with
  | Some rest => rest
  | None => s
  end.

(** [strings.Replace(s, "_", "-", -1)] *)
Fixpoint ReplaceUnderscores (s : string) : string :=
  match s with
  | EmptyString => EmptyString
  | String a s' =>
      String (if Ascii.eqb a underscore then hyphen else a) (ReplaceUnderscores s')
  end.

(** [filepath.Join(a, b)] for two cleaned path elements: empty elements
    are ignored, the others are joined by a slash. *)
Definition Join (a b : string) : string :=
  match a, b with
  | EmptyString, _ => b
  | _, EmptyString => a
  | _, _ => a +:+ "/" +:+ b
  end.

End Str.

(** ** Errors *)

(** The reasons of an API status error that the code tells apart. *)
Inductive StatusReason :=
| StatusReasonAlreadyExists
| StatusReasonNotFound
| StatusReasonUnknown.

(** Go errors: an API status error, [fmt.Errorf] without and with a wrapped
    error ([%w]; the text before and after the wrapped error is kept), and
    the aggregate built by [utilerrors.NewAggregate]. *)
#[warnings="-register-all"] Inductive error :=
| StatusError (reason : StatusReason) (message : string)
| Errorf (message : string)
| Wrapf (before : string) (err : error) (after : string)
| Aggregate (errs : list error).

(** [kerrors.IsAlreadyExists] and [kerrors.IsNotFound], on the errors a
    client call returns. *)
Definition IsAlreadyExists (err : error) : bool :=
  match err with
  | StatusError StatusReasonAlreadyExists _ => true
  | _ => false
  end.

Definition IsNotFound (err : error) : bool :=
  match err with
  | StatusError StatusReasonNotFound _ => true
  | _ => false
  end.

(** [utilerrors.NewAggregate]: nil for an empty list, the aggregate of the
    errors otherwise (a [list error] holds no nil entry to filter out). *)
Definition NewAggregate (errs : list error) : option error :=
  match errs with
  | [] => None
  | _ :: _ => Some (Aggregate errs)
  end.

(** A panic of the Go runtime (nil map write, index out of range). *)
Inductive exec (A : Type) :=
| Normal (a : A)
| Panics.
Arguments Normal {A} a.
Arguments Panics {A}.

Definition exec_bind {A B : Type} (x : exec A) (f : A -> exec B) : exec B :=
  match x with
  | Normal a => f a
  | Panics => Panics
  end.

(** ** The API types the step reads (package api) *)

Record CredentialReference := {
  cred_Namespace : string;
  cred_Name : string;
  cred_MountPath : string
}.

(** The name under which a credential is mirrored into the test namespace,
    as [createCredentials] computes it:
    [fmt.Sprintf("%s-%s", credential.Namespace, credential.Name)]. *)
Definition createCredentials_name (credential : CredentialReference) : string :=
  cred_Namespace credential +:+ "-" +:+ cred_Name credential.

(** The name of the volume and of the secret behind it, as [addCredentials]
    computes it: the same format string, written a second time. *)
Definition addCredentials_name (credential : CredentialReference) : string :=
  cred_Namespace credential +:+ "-" +:+ cred_Name credential.

Record StepParameter := {
  param_Name : string;
  param_Default : option string
}.

Record StepDependency := {
  dep_Name : string;
  dep_Env : string
}.

Record StepLease := {
  lease_ResourceType : string;
  lease_Env : string
}.

(** [api.ResourceRequirements]: requests and limits by resource name. *)
Record ResourceRequirements := {
  res_Requests : list (string * string);
  res_Limits : list (string * string)
}.

Record ImageStreamTagReference := {
  istag_Namespace : string;
  istag_Name : string;
  istag_Tag : string
}.

(** [api.LiteralTestStep]: one declared step of a phase. *)
Record LiteralTestStep := {
  step_As : string;
  step_From : string;
  step_FromImage : option ImageStreamTagReference;
  step_Commands : string;
  step_ArtifactDir : string;
  step_Resources : ResourceRequirements;
  step_Credentials : list CredentialReference;
  step_Environment : list StepParameter;
  step_Dependencies : list StepDependency;
  step_Cli : string;
  step_ActiveDeadlineSeconds : option Z;
  step_TerminationGracePeriodSeconds : option Z;
  step_ReadonlySharedDir : bool;
  step_OptionalOnSuccess : option bool
}.

Record Metadata := {
  meta_Org : string;
  meta_Repo : string;
  meta_Branch : string;
  meta_Variant : string
}.

(** [api.ReleaseBuildConfiguration]: the step reads its metadata and asks
    it about images ([IsPipelineImage], [BuildsImage], [DependencyParts]);
    [cfg_Images] stands for what those methods look at. *)
Record ReleaseBuildConfiguration := {
  cfg_Metadata : Metadata;
  cfg_Images : list string
}.

Record OwnerReference := {
  owner_Kind : string;
  owner_Name : string;
  owner_UID : string
}.

(** [api.JobSpec], through the three methods the step calls:
    [Namespace()], [JobNameHash()] and [Owner()]. *)
Record JobSpec := {
  job_Namespace : string;
  job_JobNameHash : string;
  job_Owner : option OwnerReference
}.

(** [api.StepLink]: the prerequisites a step declares. *)
Inductive StepLink :=
| ExternalImageLink (stream tag : string)
| InternalImageLink (tag : string)
| ReleaseImagesLink (release : string)
| ReleasePayloadImageLink (release : string)
| ImagesReadyLink
| OtherLink (name : string).

Global Instance StepLink_eq_dec : EqDecision StepLink.
Proof. solve_decision. Defined.

(** ** The cluster objects the step builds (packages coreapi, rbacapi, meta) *)

Record EnvVar := {
  env_Name : string;
  env_Value : string
}.

Inductive VolumeSource :=
| EmptyDirVolumeSource
| SecretVolumeSource (SecretName : string).

Record Volume := {
  vol_Name : string;
  vol_VolumeSource : VolumeSource
}.

Record VolumeMount := {
  mount_Name : string;
  mount_MountPath : string
}.

Record Container := {
  c_Name : string;
  c_Image : string;
  c_Command : list string;
  c_Args : list string;
  c_Env : list EnvVar;
  c_Resources : ResourceRequirements;
  c_VolumeMounts : list VolumeMount;
  c_TerminationMessagePolicy : string
}.

Record ObjectMeta := {
  om_Name : string;
  om_Namespace : string;
  om_Labels : option (gmap string string);
  om_Annotations : option (gmap string string);
  om_OwnerReferences : list OwnerReference
}.

Record PodSpec := {
  spec_Volumes : list Volume;
  spec_InitContainers : list Container;
  spec_Containers : list Container;
  spec_ActiveDeadlineSeconds : option Z;
  spec_ServiceAccountName : string;
  spec_TerminationGracePeriodSeconds : option Z
}.

Record PodStatus := {
  status_Phase : string;
  status_Reason : string
}.

Record Pod := {
  pod_ObjectMeta : ObjectMeta;
  pod_Spec : PodSpec;
  pod_Status : PodStatus
}.

Definition pod_Name (pod : Pod) : string := om_Name (pod_ObjectMeta pod).
Definition pod_Namespace (pod : Pod) : string := om_Namespace (pod_ObjectMeta pod).
Definition pod_Labels (pod : Pod) := om_Labels (pod_ObjectMeta pod).
Definition pod_Annotations (pod : Pod) := om_Annotations (pod_ObjectMeta pod).

Record Secret := {
  secret_ObjectMeta : ObjectMeta;
  secret_TypeMeta : string;
  secret_Type : string;
  secret_Data : list (string * string);
  secret_StringData : list (string * string)
}.

Record PolicyRule := {
  rule_APIGroups : list string;
  rule_Resources : list string;
  rule_ResourceNames : list string;
  rule_Verbs : list string
}.

Record Subject := {
  subj_Kind : string;
  subj_Name : string
}.

Record RoleRef := {
  ref_Kind : string;
  ref_Name : string
}.

(** The objects handed to the client. *)
Inductive Object :=
| ServiceAccountObject (m : ObjectMeta)
| RoleObject (m : ObjectMeta) (Rules : list PolicyRule)
| RoleBindingObject (m : ObjectMeta) (ref : RoleRef) (Subjects : list Subject)
| SecretObject (secret : Secret)
| PodObject (pod : Pod).

(** Field updates: the Go code assigns to one field at a time. *)

Definition om_with_Labels (f : option (gmap string string) -> option (gmap string string))
    (m : ObjectMeta) : ObjectMeta :=
  {| om_Name := om_Name m; om_Namespace := om_Namespace m;
     om_Labels := f (om_Labels m); om_Annotations := om_Annotations m;
     om_OwnerReferences := om_OwnerReferences m |}.

Definition om_with_Annotations (f : option (gmap string string) -> option (gmap string string))
    (m : ObjectMeta) : ObjectMeta :=
  {| om_Name := om_Name m; om_Namespace := om_Namespace m;
     om_Labels := om_Labels m; om_Annotations := f (om_Annotations m);
     om_OwnerReferences := om_OwnerReferences m |}.

Definition om_with_OwnerReferences (f : list OwnerReference -> list OwnerReference)
    (m : ObjectMeta) : ObjectMeta :=
  {| om_Name := om_Name m; om_Namespace := om_Namespace m;
     om_Labels := om_Labels m; om_Annotations := om_Annotations m;
     om_OwnerReferences := f (om_OwnerReferences m) |}.

Definition spec_with_Volumes (f : list Volume -> list Volume) (sp : PodSpec) : PodSpec :=
  {| spec_Volumes := f (spec_Volumes sp);
     spec_InitContainers := spec_InitContainers sp;
     spec_Containers := spec_Containers sp;
     spec_ActiveDeadlineSeconds := spec_ActiveDeadlineSeconds sp;
     spec_ServiceAccountName := spec_ServiceAccountName sp;
     spec_TerminationGracePeriodSeconds := spec_TerminationGracePeriodSeconds sp |}.

Definition spec_with_InitContainers (f : list Container -> list Container)
    (sp : PodSpec) : PodSpec :=
  {| spec_Volumes := spec_Volumes sp;
     spec_InitContainers := f (spec_InitContainers sp);
     spec_Containers := spec_Containers sp;
     spec_ActiveDeadlineSeconds := spec_ActiveDeadlineSeconds sp;
     spec_ServiceAccountName := spec_ServiceAccountName sp;
     spec_TerminationGracePeriodSeconds := spec_TerminationGracePeriodSeconds sp |}.

Definition spec_with_Containers (f : list Container -> list Container)
    (sp : PodSpec) : PodSpec :=
  {| spec_Volumes := spec_Volumes sp;
     spec_InitContainers := spec_InitContainers sp;
     spec_Containers := f (spec_Containers sp);
     spec_ActiveDeadlineSeconds := spec_ActiveDeadlineSeconds sp;
     spec_ServiceAccountName := spec_ServiceAccountName sp;
     spec_TerminationGracePeriodSeconds := spec_TerminationGracePeriodSeconds sp |}.

(** The three scalar fields [generatePods] sets on the pod spec. *)
Definition spec_with_scalars (deadline : option Z) (account : string) (grace : option Z)
    (sp : PodSpec) : PodSpec :=
  {| spec_Volumes := spec_Volumes sp;
     spec_InitContainers := spec_InitContainers sp;
     spec_Containers := spec_Containers sp;
     spec_ActiveDeadlineSeconds := deadline;
     spec_ServiceAccountName := account;
     spec_TerminationGracePeriodSeconds := grace |}.

Definition pod_with_ObjectMeta (f : ObjectMeta -> ObjectMeta) (pod : Pod) : Pod :=
  {| pod_ObjectMeta := f (pod_ObjectMeta pod); pod_Spec := pod_Spec pod;
     pod_Status := pod_Status pod |}.

Definition pod_with_Spec (f : PodSpec -> PodSpec) (pod : Pod) : Pod :=
  {| pod_ObjectMeta := pod_ObjectMeta pod; pod_Spec := f (pod_Spec pod);
     pod_Status := pod_Status pod |}.

Definition c_with_Command (f : list string -> list string) (c : Container) : Container :=
  {| c_Name := c_Name c; c_Image := c_Image c; c_Command := f (c_Command c);
     c_Args := c_Args c; c_Env := c_Env c; c_Resources := c_Resources c;
     c_VolumeMounts := c_VolumeMounts c;
     c_TerminationMessagePolicy := c_TerminationMessagePolicy c |}.

Definition c_with_Args (f : list string -> list string) (c : Container) : Container :=
  {| c_Name := c_Name c; c_Image := c_Image c; c_Command := c_Command c;
     c_Args := f (c_Args c); c_Env := c_Env c; c_Resources := c_Resources c;
     c_VolumeMounts := c_VolumeMounts c;
     c_TerminationMessagePolicy := c_TerminationMessagePolicy c |}.

Definition c_with_Env (f : list EnvVar -> list EnvVar) (c : Container) : Container :=
  {| c_Name := c_Name c; c_Image := c_Image c; c_Command := c_Command c;
     c_Args := c_Args c; c_Env := f (c_Env c); c_Resources := c_Resources c;
     c_VolumeMounts := c_VolumeMounts c;
     c_TerminationMessagePolicy := c_TerminationMessagePolicy c |}.

Definition c_with_VolumeMounts (f : list VolumeMount -> list VolumeMount)
    (c : Container) : Container :=
  {| c_Name := c_Name c; c_Image := c_Image c; c_Command := c_Command c;
     c_Args := c_Args c; c_Env := c_Env c; c_Resources := c_Resources c;
     c_VolumeMounts := f (c_VolumeMounts c);
     c_TerminationMessagePolicy := c_TerminationMessagePolicy c |}.

(** [pod.Spec.Containers[0]] as an assignable place: the update of the
    first container, a panic (index out of range) when there is none. *)
Definition with_Container0 (f : Container -> Container) (pod : Pod) : exec Pod :=
  match spec_Containers (pod_Spec pod) with
  | [] => Panics
  | c :: cs => Normal (pod_with_Spec (spec_with_Containers (fun _ => f c :: cs)) pod)
  end.

(** [delete(m, k)]: a no-op on a nil map. *)
Definition map_delete (k : string) (m : option (gmap string string))
    : option (gmap string string) :=
  match m with
  | None => None
  | Some m => Some (delete k m)
  end.

(** [m[k] = v]: a panic on a nil map. *)
Definition map_assign (k v : string) (m : option (gmap string string))
    : exec (option (gmap string string)) :=
  match m with
  | None => Panics
  | Some m => Normal (Some (<[k:=v]> m))
  end.

(** ** Constants of the file *)

Definition MultiStageTestLabel : string := "ci.openshift.io/multi-stage-test".
Definition ClusterProfileMountPath : string :=
  "/var/run/secrets/ci.openshift.io/cluster-profile".
Definition SecretMountPath : string := "/var/run/secrets/ci.openshift.io/multi-stage".
Definition SecretMountEnv : string := "SHARED_DIR".
Definition ClusterProfileMountEnv : string := "CLUSTER_PROFILE_DIR".
Definition CliMountPath : string := "/cli".
Definition CliEnv : string := "CLI_DIR".

Definition CommandPrefix : string :=
  "#!/bin/bash" +:+ Str.nl +:+
  "set -eu" +:+ Str.nl +:+
  "if [[ -e ${KUBECONFIG:-} ]]; then WRITEABLE_KUBECONFIG_LOCATION=$(mktemp) && cp $KUBECONFIG $WRITEABLE_KUBECONFIG_LOCATION && export KUBECONFIG=$WRITEABLE_KUBECONFIG_LOCATION && unset WRITEABLE_KUBECONFIG_LOCATION; fi" +:+ Str.nl +:+
  "if ! [[ -d ${HOME:-} ]]; then export HOME=/alabama; fi" +:+ Str.nl.

(** The line [addCliInjector] inserts after the prefix:
    [export PATH="${PATH}:${CLI_DIR}"]. *)
Definition CliPathExport : string :=
  "export PATH=" +:+ Str.dquote +:+ "${PATH}:${CLI_DIR}" +:+ Str.dquote.

Definition multiStageTestStepContainerName : string := "test".

Arguments CommandPrefix : simpl never.
Arguments CliPathExport : simpl never.

(** ** Collaborators outside this file

    Constants, methods and helpers of the repository that
    [multi_stage.go] uses and that are declared in other files. They are
    parameters of the development. *)
Class Collaborators := {
  (* package api *)
  PipelineImageStream : string;
  LatestReleaseName : string;
  ReleaseStreamFor : string -> string;
  LinkForImage : string -> string -> StepLink;
  FromImageTag : LiteralTestStep -> option string;
  IsPipelineImage : ReleaseBuildConfiguration -> string -> bool;
  BuildsImage : ReleaseBuildConfiguration -> string -> bool;
  DependencyParts : ReleaseBuildConfiguration -> StepDependency -> string * string * bool;
  ClusterType : string -> string;
  (* package utils *)
  ReleaseImageEnv : string -> string;
  ImageFormatEnv : string;
  LinkForEnv : string -> option StepLink;
  (* package steps *)
  DefaultLeaseEnv : string;
  ProwJobIdLabel : string;
  annotationSaveContainerLogs : string;
  homeVolumeName : string;
  apiCIRegistry : string;
  resourcesFor : ResourceRequirements -> ResourceRequirements + error;
  generateBasePod :
    JobSpec -> string -> string -> list string -> string -> ResourceRequirements ->
    string -> Pod + error
}.

(** The receiver of the methods: [multiStageTestStep] without the client,
    the parameter store and the sub-test records, which live in the world
    (see [World] below). *)
Record multiStageTestStep := {
  name : string;
  profile : string;
  config : ReleaseBuildConfiguration;
  env : gmap string string;
  artifactDir : string;
  jobSpec : JobSpec;
  pre : list LiteralTestStep;
  test : list LiteralTestStep;
  post : list LiteralTestStep;
  allowSkipOnSuccess : option bool;
  leases : list StepLease
}.

Definition profileSecretName (s : multiStageTestStep) : string :=
  name s +:+ "-cluster-profile".

Global Instance exec_ret : MRet exec := fun _ a => Normal a.
Global Instance exec_mbind : MBind exec := fun _ _ f x => exec_bind x f.

(** ** Workload builder: the injectors *)

Section Builder.
Context `{Collaborators}.

Definition envForProfile : list string :=
  [ReleaseImageEnv LatestReleaseName; DefaultLeaseEnv; ImageFormatEnv].

Definition addSecretWrapper (pod : Pod) : exec Pod :=
  let volume := "secret-wrapper" in
  let dir := "/tmp/secret-wrapper" in
  let bin := Str.Join dir "secret-wrapper" in
  let pod := pod_with_Spec (spec_with_Volumes (fun vs => vs ++
    [{| vol_Name := volume; vol_VolumeSource := EmptyDirVolumeSource |}])) pod in
  let mount := {| mount_Name := volume; mount_MountPath := dir |} in
  let pod := pod_with_Spec (spec_with_InitContainers (fun cs => cs ++
    [{| c_Name := "cp-secret-wrapper";
        c_Image := apiCIRegistry +:+ "/ci/secret-wrapper:latest";
        c_Command := ["cp"];
        c_Args := ["/bin/secret-wrapper"; bin];
        c_Env := [];
        c_Resources := {| res_Requests := []; res_Limits := [] |};
        c_VolumeMounts := [mount];
        c_TerminationMessagePolicy := "FallbackToLogsOnError" |}])) pod in
  with_Container0 (fun container =>
    let container := c_with_Args (fun args => c_Command container ++ args) container in
    let container := c_with_Command (fun _ => [bin]) container in
    c_with_VolumeMounts (fun ms => ms ++ [mount]) container) pod.

Definition generateParams (s : multiStageTestStep) (params : list StepParameter)
    : list EnvVar :=
  map (fun p =>
         let value := match param_Default p with Some d => d | None => "" end in
         let value := match env s !! param_Name p with Some v => v | None => value end in
         {| env_Name := param_Name p; env_Value := value |}) params.

Definition addSecret (secret : string) (pod : Pod) : exec Pod :=
  let pod := pod_with_Spec (spec_with_Volumes (fun vs => vs ++
    [{| vol_Name := secret; vol_VolumeSource := SecretVolumeSource secret |}])) pod in
  pod ← with_Container0 (c_with_VolumeMounts (fun ms => ms ++
    [{| mount_Name := secret; mount_MountPath := SecretMountPath |}])) pod;
  with_Container0 (c_with_Env (fun es => es ++
    [{| env_Name := SecretMountEnv; env_Value := SecretMountPath |}])) pod.

Fixpoint addCredentials (credentials : list CredentialReference) (pod : Pod) : exec Pod :=
  match credentials with
  | [] => Normal pod
  | credential :: rest =>
      let name := addCredentials_name credential in
      let pod := pod_with_Spec (spec_with_Volumes (fun vs => vs ++
        [{| vol_Name := name; vol_VolumeSource := SecretVolumeSource name |}])) pod in
      pod ← with_Container0 (c_with_VolumeMounts (fun ms => ms ++
        [{| mount_Name := name; mount_MountPath := cred_MountPath credential |}])) pod;
      addCredentials rest pod
  end.

Definition addProfile (name : string) (profile : string) (pod : Pod) : exec Pod :=
  let volumeName := "cluster-profile" in
  let pod := pod_with_Spec (spec_with_Volumes (fun vs => vs ++
    [{| vol_Name := volumeName; vol_VolumeSource := SecretVolumeSource name |}])) pod in
  with_Container0 (fun container =>
    let container := c_with_VolumeMounts (fun ms => ms ++
      [{| mount_Name := volumeName; mount_MountPath := ClusterProfileMountPath |}])
      container in
    c_with_Env (fun es => es ++
      [{| env_Name := "CLUSTER_TYPE"; env_Value := ClusterType profile |};
       {| env_Name := ClusterProfileMountEnv; env_Value := ClusterProfileMountPath |}])
      container) pod.

(** The rewriting of one argument in [addCliInjector]. *)
Definition injectCliPath (arg : string) : string :=
  if Str.HasPrefix arg CommandPrefix
  then CommandPrefix +:+ CliPathExport +:+ Str.nl +:+ Str.TrimPrefix arg CommandPrefix
  else arg.

Definition addCliInjector (release : string) (pod : Pod) : exec Pod :=
  let volumeName := "cli" in
  let pod := pod_with_Spec (spec_with_Volumes (fun vs => vs ++
    [{| vol_Name := volumeName; vol_VolumeSource := EmptyDirVolumeSource |}])) pod in
  let pod := pod_with_Spec (spec_with_InitContainers (fun cs => cs ++
    [{| c_Name := "inject-cli";
        c_Image := ReleaseStreamFor release +:+ ":cli";
        c_Command := ["/bin/cp"];
        c_Args := ["/usr/bin/oc"; CliMountPath];
        c_Env := [];
        c_Resources := {| res_Requests := []; res_Limits := [] |};
        c_VolumeMounts := [{| mount_Name := volumeName; mount_MountPath := CliMountPath |}];
        c_TerminationMessagePolicy := "" |}])) pod in
  with_Container0 (fun container =>
    let container := c_with_Args (map injectCliPath) container in
    let container := c_with_VolumeMounts (fun ms => ms ++
      [{| mount_Name := volumeName; mount_MountPath := CliMountPath |}]) container in
    c_with_Env (fun es => es ++
      [{| env_Name := CliEnv; env_Value := CliMountPath |}]) container) pod.

End Builder.

(** ** The cluster and the other stateful collaborators *)

(** The contexts the step passes along: [context.Background()],
    [context.TODO()] and the context of the caller of [Run], the only one
    that can be cancelled. *)
Inductive Context :=
| Background
| TODO
| Caller.

(** Modelled from the spec: [cleanupCtx], a package variable declared in
    another file; the spec describes it as a detached context that is not
    cancelled. *)
Definition cleanupCtx : Context := Background.

Record ObjectKey := {
  key_Namespace : string;
  key_Name : string
}.

Record TestCase := {
  tc_Name : string;
  tc_Failure : option string
}.

(** The methods of [PodClient] the step calls, over the state [E] of the
    cluster: [client_Get] always reads into a secret here, and
    [client_DeleteAllOf] always deletes pods, in a namespace, by labels. *)
Class Client (E : Type) := {
  client_Create : Context -> Object -> E -> option error * E;
  client_Get : Context -> ObjectKey -> E -> (Secret + error) * E;
  client_Delete : Context -> Object -> E -> option error * E;
  client_DeleteAllOf :
    Context -> string -> list (string * string) -> E -> option error * E
}.

(** The other stateful collaborators.
    - [createOrRestartPod] and [waitForPodCompletion] are helpers of the
      package; of the pod the former returns only the error is used; the
      latter is given the notifier, here the boolean that tells whether it
      is the artifact worker.
    - [notifier_SubTests] is [notifier.SubTests(prefix)] for that notifier.
    - [params_Get] is [api.Parameters.Get]; [resolveOptionalOperator]
      returns the environment of the optional operator ([asEnv()]), if any.
    - [ImageDigestFor] is [utils.ImageDigestFor(client, namespace, stream, name)()].
    - [caller_Done] tells whether the caller's context is cancelled. *)
Class Cluster (E : Type) := {
  cluster_client :: Client E;
  createOrRestartPod : Pod -> E -> option error * E;
  waitForPodCompletion :
    Context -> string -> string -> bool -> E -> (option Pod * option error) * E;
  notifier_SubTests : bool -> string -> E -> list TestCase;
  params_Get : string -> E -> string + error;
  resolveOptionalOperator : E -> option (list EnvVar) + error;
  ImageDigestFor : string -> string -> string -> E -> string + error;
  caller_Done : E -> bool
}.

(** [<-ctx.Done()] in a [select] with a default case. *)
Definition ctx_Done `{Cluster E} (ctx : Context) (e : E) : bool :=
  match ctx with
  | Caller => caller_Done e
  | Background | TODO => false
  end.

(** ** Workload builder: [generatePods] *)

(** What the loop body of [generatePods] does with one step: [continue]
    without a trace, [continue] after recording errors, or append a pod. *)
Inductive StepOutcome :=
| Skipped
| Failed (errs : list error)
| Built (pod : Pod).

Section GeneratePods.
Context `{Collaborators} `{Cluster E}.

Definition envForDependencies (s : multiStageTestStep) (e : E) (step : LiteralTestStep)
    : list EnvVar * list error :=
  fold_left
    (fun '(env, errs) dependency =>
       let '(imageStream, name, _) := DependencyParts (config s) dependency in
       match ImageDigestFor (job_Namespace (jobSpec s)) imageStream name e with
       | inr _ =>
           (env, errs ++ [Errorf ("could not determine image pull spec for image " +:+
                                   dep_Name dependency +:+ " on step " +:+ step_As step)])
       | inl ref => (env ++ [{| env_Name := dep_Env dependency; env_Value := ref |}], errs)
       end)
    (step_Dependencies step) ([], []).

(** The condition of the first [continue]. *)
Definition skips (s : multiStageTestStep) (hasPrevErrs : bool) (step : LiteralTestStep)
    : bool :=
  match allowSkipOnSuccess s, step_OptionalOnSuccess step with
  | Some allow, Some optional => allow && optional && negb hasPrevErrs
  | _, _ => false
  end.

(** The body of the loop of [generatePods]. The state [e] of the
    cluster is what the image digests are resolved against. *)
Definition generatePod (s : multiStageTestStep) (env : list EnvVar) (hasPrevErrs : bool)
    (e : E) (step : LiteralTestStep) : exec StepOutcome :=
  if skips s hasPrevErrs step then Normal Skipped else
  let image :=
    match FromImageTag step with
    | Some link => PipelineImageStream +:+ ":" +:+ link
    | None =>
        let dep := {| dep_Name := step_From step; dep_Env := "" |} in
        let '(stream, tag, _) := DependencyParts (config s) dep in
        stream +:+ ":" +:+ tag
    end in
  match resourcesFor (step_Resources step) with
  | inr err => Normal (Failed [err])
  | inl resources =>
  let podName := name s +:+ "-" +:+ step_As step in
  match generateBasePod (jobSpec s) podName multiStageTestStepContainerName
          ["/bin/bash"; "-c"; CommandPrefix +:+ step_Commands step]
          image resources (step_ArtifactDir step) with
  | inr err => Normal (Failed [err])
  | inl pod =>
  let pod := pod_with_ObjectMeta (om_with_Labels (map_delete ProwJobIdLabel)) pod in
  annotations ← map_assign annotationSaveContainerLogs "true" (pod_Annotations pod);
  let pod := pod_with_ObjectMeta (om_with_Annotations (fun _ => annotations)) pod in
  labels ← map_assign MultiStageTestLabel (name s) (pod_Labels pod);
  let pod := pod_with_ObjectMeta (om_with_Labels (fun _ => labels)) pod in
  let pod := pod_with_Spec (spec_with_scalars (step_ActiveDeadlineSeconds step)
                              (name s)
                              (step_TerminationGracePeriodSeconds step)) pod in
  let pod := pod_with_Spec (spec_with_Volumes (fun vs => vs ++
    [{| vol_Name := homeVolumeName; vol_VolumeSource := EmptyDirVolumeSource |}])) pod in
  let pod := pod_with_Spec (spec_with_Containers (map (fun c =>
    if String.eqb (c_Name c) multiStageTestStepContainerName
    then c_with_VolumeMounts (fun ms => ms ++
           [{| mount_Name := homeVolumeName; mount_MountPath := "/alabama" |}]) c
    else c))) pod in
  pod ← (if step_ReadonlySharedDir step then Normal pod else addSecretWrapper pod);
  pod ← with_Container0 (c_with_Env (fun es => es ++
    [{| env_Name := "NAMESPACE"; env_Value := job_Namespace (jobSpec s) |};
     {| env_Name := "JOB_NAME_SAFE"; env_Value := Str.ReplaceUnderscores (name s) |};
     {| env_Name := "JOB_NAME_HASH"; env_Value := job_JobNameHash (jobSpec s) |}])) pod;
  pod ← with_Container0 (c_with_Env (fun es => es ++ env)) pod;
  pod ← with_Container0 (c_with_Env (fun es => es ++
    generateParams s (step_Environment step))) pod;
  let '(depEnv, depErrs) := envForDependencies s e step in
  match depErrs with
  | _ :: _ => Normal (Failed depErrs)
  | [] =>
  pod ← with_Container0 (c_with_Env (fun es => es ++ depEnv)) pod;
  let pod :=
    match job_Owner (jobSpec s) with
    | Some owner =>
        pod_with_ObjectMeta (om_with_OwnerReferences (fun os => os ++ [owner])) pod
    | None => pod
    end in
  pod ← (if String.eqb (profile s) "" then Normal pod else
           pod ← addProfile (profileSecretName s) (profile s) pod;
           with_Container0 (c_with_Env (fun es => es ++
             [{| env_Name := "KUBECONFIG";
                 env_Value := Str.Join SecretMountPath "kubeconfig" |};
              {| env_Name := "KUBEADMIN_PASSWORD_FILE";
                 env_Value := Str.Join SecretMountPath "kubeadmin-password" |}])) pod);
  pod ← (if String.eqb (step_Cli step) "" then Normal pod
         else addCliInjector (step_Cli step) pod);
  pod ← addSecret (name s) pod;
  pod ← addCredentials (step_Credentials step) pod;
  Normal (Built pod)
  end
  end
  end.

(** The loop of [generatePods], with its two accumulators. *)
Fixpoint generatePods_loop (s : multiStageTestStep) (env : list EnvVar)
    (hasPrevErrs : bool) (e : E) (steps : list LiteralTestStep)
    (ret : list Pod) (errs : list error) : exec (list Pod * list error) :=
  match steps with
  | [] => Normal (ret, errs)
  | step :: steps =>
      outcome ← generatePod s env hasPrevErrs e step;
      match outcome with
      | Skipped => generatePods_loop s env hasPrevErrs e steps ret errs
      | Failed es => generatePods_loop s env hasPrevErrs e steps ret (errs ++ es)
      | Built pod => generatePods_loop s env hasPrevErrs e steps (ret ++ [pod]) errs
      end
  end.

Definition generatePods (s : multiStageTestStep) (steps : list LiteralTestStep)
    (env : list EnvVar) (hasPrevErrs : bool) (e : E) : exec (list Pod * option error) :=
  '(ret, errs) ← generatePods_loop s env hasPrevErrs e steps [] [];
  Normal (ret, NewAggregate errs).

End GeneratePods.

(** ** Dependency/link resolver: [Requires] *)

Section Requires.
Context `{Collaborators}.

(** Whether the source image of a step is produced by the pipeline: the
    condition of the first [if] of the loop. *)
Definition internalSource (s : multiStageTestStep) (step : LiteralTestStep) : bool :=
  IsPipelineImage (config s) (step_From step) || BuildsImage (config s) (step_From step).

(** The body of the first loop of [Requires], on the three variables it
    updates: [ret], [internalLinks] and [needsReleaseImage]. *)
Definition Requires_step (s : multiStageTestStep)
    (acc : list StepLink * gset string * bool) (step : LiteralTestStep)
    : list StepLink * gset string * bool :=
  let '(ret, internalLinks, needsReleaseImage) := acc in
  let '(internalLinks, needsReleaseImage) :=
    if internalSource s step
    then ({[step_From step]} ∪ internalLinks, needsReleaseImage)
    else (internalLinks, true) in
  let internalLinks :=
    match FromImageTag step with
    | Some link => {[link]} ∪ internalLinks
    | None => internalLinks
    end in
  let ret :=
    ret ++ map (fun dependency =>
                  let '(imageStream, name, _) := DependencyParts (config s) dependency in
                  LinkForImage imageStream name) (step_Dependencies step) in
  let ret :=
    if String.eqb (step_Cli step) "" then ret else
      let dependency :=
        {| dep_Name := ReleaseStreamFor (step_Cli step) +:+ ":cli"; dep_Env := "" |} in
      let '(imageStream, name, _) := DependencyParts (config s) dependency in
      ret ++ [LinkForImage imageStream name] in
  (ret, internalLinks, needsReleaseImage).

(** The state of [Requires] after its first loop. *)
Definition Requires_steps (s : multiStageTestStep)
    : list StepLink * gset string * bool :=
  fold_left (Requires_step s) ((pre s ++ test s) ++ post s) ([], ∅, false).

(** [Requires]. The range over the map [internalLinks] has no specified
    order in Go; here it follows [elements]. *)
Definition Requires (s : multiStageTestStep) : list StepLink :=
  let '(ret, internalLinks, needsReleaseImage) := Requires_steps s in
  let ret := ret ++ map InternalImageLink (elements internalLinks) in
  let '(ret, needsReleasePayload) :=
    if String.eqb (profile s) "" then (ret, false)
    else (ret ++ omap LinkForEnv envForProfile, true) in
  if needsReleaseImage && negb needsReleasePayload
  then ret ++ [ReleaseImagesLink LatestReleaseName]
  else ret.




End Requires.

(** ** The world: collaborator state, call log, sub-tests *)

(** The calls the step makes to the cluster, in the order it makes them. *)
Inductive Event :=
| CallCreate (ctx : Context) (obj : Object)
| CallGet (ctx : Context) (key : ObjectKey)
| CallDelete (ctx : Context) (obj : Object)
| CallDeleteAllOf (ctx : Context) (namespace : string) (labels : list (string * string))
| CallCreateOrRestartPod (pod : Pod)
| CallWaitForPodCompletion (ctx : Context) (namespace name : string)
| CallCollectFromPod (dir namespace podName : string) (containers : list string).

Record World (E : Type) := {
  ext : E;
  calls : list Event;
  subTests : list TestCase
}.
Arguments ext {E} _.
Arguments calls {E} _.
Arguments subTests {E} _.

(** Stateful code that cannot panic. *)
Definition M (E A : Type) : Type := World E -> A * World E.

Definition retM {E A} (a : A) : M E A := fun w => (a, w).

Definition bindM {E A B} (m : M E A) (k : A -> M E B) : M E B :=
  fun w => let '(a, w') := m w in k a w'.

Declare Scope run_scope.
Delimit Scope run_scope with run.
Notation "x <- m ;; k" := (bindM m (fun x => k))
  (at level 100, m at next level, right associativity) : run_scope.

(** A call to a collaborator: logged, then answered from the state. *)
Definition call {E A} (ev : Event) (f : E -> A * E) : M E A :=
  fun w =>
    let '(a, e') := f (ext w) in
    (a, {| ext := e'; calls := calls w ++ [ev]; subTests := subTests w |}).

(** A read of the collaborators' state. *)
Definition readM {E A} (f : E -> A) : M E A := fun w => (f (ext w), w).

Definition appendSubTests {E} (ts : list TestCase) : M E unit :=
  fun w => (tt, {| ext := ext w; calls := calls w; subTests := subTests w ++ ts |}).

(** [len(errs) != 0] *)
Definition nonEmpty {A} (l : list A) : bool :=
  match l with
  | [] => false
  | _ :: _ => true
  end.

(** ** Environment resolver *)

Section Environment.
Context `{Collaborators} `{Cluster E}.
Open Scope run_scope.

Fixpoint environment_leases (ls : list StepLease) (ret : list EnvVar) (e : E)
    : list EnvVar + error :=
  match ls with
  | [] => inl ret
  | l :: ls =>
      match params_Get (lease_Env l) e with
      | inr err => inr err
      | inl val =>
          environment_leases ls (ret ++ [{| env_Name := lease_Env l; env_Value := val |}]) e
      end
  end.

Fixpoint environment_profile (names : list string) (ret : list EnvVar) (e : E)
    : list EnvVar + error :=
  match names with
  | [] => inl ret
  | n :: names =>
      match params_Get n e with
      | inr err => inr err
      | inl val => environment_profile names (ret ++ [{| env_Name := n; env_Value := val |}]) e
      end
  end.

Definition environment (s : multiStageTestStep) (ctx : Context)
    : M E (list EnvVar + error) :=
  leased <- readM (environment_leases (leases s) []) ;;
  match leased with
  | inr err => retM (inr err)
  | inl ret =>
      if String.eqb (profile s) "" then retM (inl ret) else
      let secret := profileSecretName s in
      got <- call (CallGet ctx {| key_Namespace := job_Namespace (jobSpec s);
                                  key_Name := secret |})
               (client_Get ctx {| key_Namespace := job_Namespace (jobSpec s);
                                  key_Name := secret |}) ;;
      match got with
      | inr err =>
          retM (inr (Wrapf ("could not find secret " +:+ Str.quote secret +:+ ": ") err ""))
      | inl _ =>
          profiled <- readM (environment_profile envForProfile ret) ;;
          match profiled with
          | inr err => retM (inr err)
          | inl ret =>
              operator <- readM resolveOptionalOperator ;;
              match operator with
              | inr err => retM (inr err)
              | inl (Some operatorEnv) => retM (inl (ret ++ operatorEnv))
              | inl None => retM (inl ret)
              end
          end
      end
  end.

End Environment.

(** ** Access provisioner *)

Section Provisioning.
Context `{Client E}.
Open Scope run_scope.

(** The secret [createSecret] deletes and creates: a name and a
    namespace, nothing else. *)
Definition sharedSecret (s : multiStageTestStep) : Secret :=
  {| secret_ObjectMeta :=
       {| om_Name := name s; om_Namespace := job_Namespace (jobSpec s);
          om_Labels := None; om_Annotations := None; om_OwnerReferences := [] |};
     secret_TypeMeta := ""; secret_Type := "";
     secret_Data := []; secret_StringData := [] |}.

Definition createSecret (s : multiStageTestStep) (ctx : Context) : M E (option error) :=
  let secret := SecretObject (sharedSecret s) in
  deleted <- call (CallDelete ctx secret) (client_Delete ctx secret) ;;
  match deleted with
  | Some err =>
      if negb (IsNotFound err)
      then retM (Some (Wrapf ("cannot delete secret " +:+ Str.quote (name s) +:+ ": ") err ""))
      else call (CallCreate ctx secret) (client_Create ctx secret)
  | None => call (CallCreate ctx secret) (client_Create ctx secret)
  end.

(** The first loop of [createCredentials]: read every source secret and
    file its copy under the derived name. *)
Fixpoint createCredentials_read (s : multiStageTestStep)
    (credentials : list CredentialReference) (toCreate : gmap string Secret)
    : M E (gmap string Secret + error) :=
  match credentials with
  | [] => retM (inl toCreate)
  | credential :: rest =>
      let name := createCredentials_name credential in
      let key := {| key_Namespace := cred_Namespace credential;
                    key_Name := cred_Name credential |} in
      got <- call (CallGet TODO key) (client_Get TODO key) ;;
      match got with
      | inr err => retM (inr (Wrapf "could not read source credential: " err ""))
      | inl raw =>
          createCredentials_read s rest
            (<[name :=
                 {| secret_ObjectMeta :=
                      {| om_Name := name; om_Namespace := job_Namespace (jobSpec s);
                         om_Labels := None; om_Annotations := None;
                         om_OwnerReferences := [] |};
                    secret_TypeMeta := secret_TypeMeta raw;
                    secret_Type := secret_Type raw;
                    secret_Data := secret_Data raw;
                    secret_StringData := secret_StringData raw |}]> toCreate)
      end
  end.

(** The second loop: create the copies. *)
Fixpoint createCredentials_create (secrets : list (string * Secret)) : M E (option error) :=
  match secrets with
  | [] => retM None
  | (_, secret) :: rest =>
      created <- call (CallCreate TODO (SecretObject secret))
                   (client_Create TODO (SecretObject secret)) ;;
      match created with
      | Some err =>
          if negb (IsAlreadyExists err)
          then retM (Some (Wrapf "could not create source credential: " err ""))
          else createCredentials_create rest
      | None => createCredentials_create rest
      end
  end.

(** [createCredentials]. The range over the map [toCreate] has no
    specified order in Go; here it follows [map_to_list]. *)
Definition createCredentials (s : multiStageTestStep) : M E (option error) :=
  let credentials := flat_map step_Credentials (pre s ++ (test s ++ post s)) in
  read <- createCredentials_read s credentials ∅ ;;
  match read with
  | inr err => retM (Some err)
  | inl toCreate => createCredentials_create (map_to_list toCreate)
  end.

(** [check] of [setupRBAC] *)
Definition check (err : option error) : bool :=
  match err with
  | None => true
  | Some err => IsAlreadyExists err
  end.

Definition rbacMeta (s : multiStageTestStep) : ObjectMeta :=
  {| om_Name := name s; om_Namespace := job_Namespace (jobSpec s);
     om_Labels := Some {[ MultiStageTestLabel := name s ]};
     om_Annotations := None; om_OwnerReferences := [] |}.

Definition rbacRole (s : multiStageTestStep) : Object :=
  RoleObject (rbacMeta s)
    [ {| rule_APIGroups := ["rbac.authorization.k8s.io"];
         rule_Resources := ["rolebindings"];
         rule_ResourceNames := [];
         rule_Verbs := ["create"; "list"] |};
      {| rule_APIGroups := [""];
         rule_Resources := ["secrets"];
         rule_ResourceNames := [name s];
         rule_Verbs := ["get"; "update"] |};
      {| rule_APIGroups := [""; "image.openshift.io"];
         rule_Resources := ["imagestreams/layers"];
         rule_ResourceNames := [];
         rule_Verbs := ["get"] |} ].

Definition rbacBinding (s : multiStageTestStep) : Object :=
  RoleBindingObject (rbacMeta s)
    {| ref_Kind := "Role"; ref_Name := name s |}
    [ {| subj_Kind := "ServiceAccount"; subj_Name := name s |} ].

Definition setupRBAC (s : multiStageTestStep) : M E (option error) :=
  let sa := ServiceAccountObject (rbacMeta s) in
  let role := rbacRole s in
  let binding := rbacBinding s in
  err <- call (CallCreate TODO sa) (client_Create TODO sa) ;;
  if negb (check err) then retM err else
  err <- call (CallCreate TODO role) (client_Create TODO role) ;;
  if negb (check err) then retM err else
  err <- call (CallCreate TODO binding) (client_Create TODO binding) ;;
  if negb (check err) then retM err else
  retM None.

(** The three provisioning calls of [run], with the text [run] puts
    before their errors. *)
Definition provision (s : multiStageTestStep) (ctx : Context) : M E (option error) :=
  err <- createSecret s ctx ;;
  match err with
  | Some err => retM (Some (Wrapf "failed to create secret: " err ""))
  | None =>
      err <- createCredentials s ;;
      match err with
      | Some err => retM (Some (Wrapf "failed to create credentials: " err ""))
      | None =>
          err <- setupRBAC s ;;
          match err with
          | Some err => retM (Some (Wrapf "failed to create RBAC objects: " err ""))
          | None => retM None
          end
      end
  end.

End Provisioning.

(** ** Phase runner *)

Section Runner.
Context `{Collaborators} `{Cluster E}.
Open Scope run_scope.

Definition Description (s : multiStageTestStep) : string :=
  "Run multi-stage test " +:+ name s.

(** [runPod]; [artifacts] tells which notifier [runPods] chose. *)
Definition runPod (s : multiStageTestStep) (ctx : Context) (pod : Pod) (artifacts : bool)
    : M E (option error) :=
  created <- call (CallCreateOrRestartPod pod) (createOrRestartPod pod) ;;
  match created with
  | Some err =>
      retM (Some (Wrapf ("failed to create or restart " +:+ Str.quote (pod_Name pod) +:+
                         " pod: ") err ""))
  | None =>
      waited <- call (CallWaitForPodCompletion ctx (pod_Namespace pod) (pod_Name pod))
                  (waitForPodCompletion ctx (pod_Namespace pod) (pod_Name pod) artifacts) ;;
      let '(newPod, err) := waited in
      let pod := match newPod with Some p => p | None => pod end in
      found <- readM (notifier_SubTests artifacts
                        (Description s +:+ " - " +:+ pod_Name pod +:+ " ")) ;;
      _ <- appendSubTests found ;;
      match err with
      | Some err =>
          let linksText :=
            "Link to step on registry info site: https://steps.ci.openshift.org/reference/"
              +:+ Str.TrimPrefix (pod_Name pod) (name s +:+ "-") in
          let linksText :=
            linksText +:+ Str.nl +:+
            "Link to job on registry info site: https://steps.ci.openshift.org/job?org="
              +:+ meta_Org (cfg_Metadata (config s))
              +:+ "&repo=" +:+ meta_Repo (cfg_Metadata (config s))
              +:+ "&branch=" +:+ meta_Branch (cfg_Metadata (config s))
              +:+ "&test=" +:+ name s in
          let linksText :=
            if String.eqb (meta_Variant (cfg_Metadata (config s))) "" then linksText
            else linksText +:+ "&variant=" +:+ meta_Variant (cfg_Metadata (config s)) in
          let status :=
            if String.eqb (status_Phase (pod_Status pod)) "Failed"
               && String.eqb (status_Reason (pod_Status pod)) "DeadlineExceeded"
            then
              match spec_ActiveDeadlineSeconds (pod_Spec pod) with
              | Some seconds =>
                  "exceeded the configured timeout" +:+ " activeDeadlineSeconds=" +:+
                  pretty seconds
              | None => "exceeded the configured timeout"
              end
            else "failed" in
          retM (Some (Wrapf (Str.quote (name s) +:+ " pod " +:+ Str.quote (pod_Name pod)
                             +:+ " " +:+ status +:+ ": ")
                        err (Str.nl +:+ linksText)))
      | None => retM None
      end
  end.

(** The inner loop of [runPods]: the artifact worker is started, and
    taken as notifier, when the pod has a container named [artifacts]. *)
Definition chooseNotifier (s : multiStageTestStep) (pod : Pod) : M E bool :=
  if existsb (fun c => String.eqb (c_Name c) "artifacts") (spec_Containers (pod_Spec pod))
  then
    let container :=
      match spec_Containers (pod_Spec pod) with
      | c :: _ => c_Name c
      | [] => ""
      end in
    let dir := Str.Join (artifactDir s) (Str.TrimPrefix (pod_Name pod) (name s +:+ "-")) in
    _ <- call (CallCollectFromPod dir (job_Namespace (jobSpec s)) (pod_Name pod) [container])
           (fun e => (tt, e)) ;;
    retM true
  else retM false.

(** The loop of [runPods], with its accumulator [errs]. *)
Fixpoint runPods_loop (s : multiStageTestStep) (ctx : Context) (shortCircuit : bool)
    (pods : list Pod) (errs : list error) : M E (list error) :=
  match pods with
  | [] => retM errs
  | pod :: pods =>
      notifier <- chooseNotifier s pod ;;
      err <- runPod s ctx pod notifier ;;
      match err with
      | Some err =>
          let errs := errs ++ [err] in
          if shortCircuit then retM errs
          else runPods_loop s ctx shortCircuit pods errs
      | None => runPods_loop s ctx shortCircuit pods errs
      end
  end.

Definition runPods (s : multiStageTestStep) (ctx : Context) (pods : list Pod)
    (shortCircuit : bool) : M E (option error) :=
  errs <- runPods_loop s ctx shortCircuit pods [] ;;
  retM (NewAggregate errs).

(** The [select] at the end of [runSteps]. *)
Definition cleanupIfCancelled (s : multiStageTestStep) (ctx : Context) (errs : list error)
    : M E (list error) :=
  cancelled <- readM (ctx_Done ctx) ;;
  if cancelled then
    deleted <- call (CallDeleteAllOf cleanupCtx (job_Namespace (jobSpec s))
                       [(MultiStageTestLabel, name s)])
                 (client_DeleteAllOf cleanupCtx (job_Namespace (jobSpec s))
                    [(MultiStageTestLabel, name s)]) ;;
    let errs :=
      match deleted with
      | Some err =>
          if negb (IsNotFound err)
          then errs ++ [Wrapf ("failed to delete pods with label " +:+ MultiStageTestLabel
                               +:+ "=" +:+ name s +:+ ": ") err ""]
          else errs
      | None => errs
      end in
    retM (errs ++ [Errorf "cancelled"])
  else retM errs.

Definition runSteps (s : multiStageTestStep) (ctx : Context)
    (steps : list LiteralTestStep) (env : list EnvVar)
    (shortCircuit hasPrevErrs : bool) (w : World E) : exec (option error * World E) :=
  generated ← generatePods s steps env hasPrevErrs (ext w);
  match generated with
  | (_, Some err) => Normal (Some err, w)
  | (pods, None) =>
      Normal ((ran <- runPods s ctx pods shortCircuit ;;
               let errs := match ran with Some err => [err] | None => [] end in
               errs <- cleanupIfCancelled s ctx errs ;;
               retM (NewAggregate errs)) w)
  end.

(** The three phases of [run], after the preparation has succeeded. *)
Definition runPhases (s : multiStageTestStep) (ctx : Context) (env : list EnvVar)
    (w : World E) : exec (option error * World E) :=
  let errs : list error := [] in
  '(failed, w) ← runSteps s ctx (pre s) env true false w;
  '(errs, w) ←
    match failed with
    | Some err =>
        Normal (errs ++ [Wrapf (Str.quote (name s) +:+ " pre steps failed: ") err ""], w)
    | None =>
        '(failed, w) ← runSteps s ctx (test s) env true (nonEmpty errs) w;
        match failed with
        | Some err =>
            Normal (errs ++ [Wrapf (Str.quote (name s) +:+ " test steps failed: ") err ""], w)
        | None => Normal (errs, w)
        end
    end;
  '(failed, w) ← runSteps s Background (post s) env false (nonEmpty errs) w;
  let errs :=
    match failed with
    | Some err => errs ++ [Wrapf (Str.quote (name s) +:+ " post steps failed: ") err ""]
    | None => errs
    end in
  Normal (NewAggregate errs, w).

(** The preparation of [run]: the environment, then the provisioning;
    the first error ends it. *)
Definition prepare (s : multiStageTestStep) (ctx : Context) : M E (list EnvVar + error) :=
  resolved <- environment s ctx ;;
  match resolved with
  | inr err => retM (inr err)
  | inl env =>
      err <- provision s ctx ;;
      match err with
      | Some err => retM (inr err)
      | None => retM (inl env)
      end
  end.

Definition run (s : multiStageTestStep) (ctx : Context) (w : World E)
    : exec (option error * World E) :=
  let '(prepared, w) := prepare s ctx w in
  match prepared with
  | inr err => Normal (Some err, w)
  | inl env => runPhases s ctx env w
  end.

End Runner.

(** ** The cluster object store *)

(** Objects are filed by kind, namespace and name. *)
Definition objectMeta (obj : Object) : ObjectMeta :=
  match obj with
  | ServiceAccountObject m => m
  | RoleObject m _ => m
  | RoleBindingObject m _ _ => m
  | SecretObject secret => secret_ObjectMeta secret
  | PodObject pod => pod_ObjectMeta pod
  end.

Definition objectKind (obj : Object) : string :=
  match obj with
  | ServiceAccountObject _ => "ServiceAccount"
  | RoleObject _ _ => "Role"
  | RoleBindingObject _ _ _ => "RoleBinding"
  | SecretObject _ => "Secret"
  | PodObject _ => "Pod"
  end.

Definition storeKey (obj : Object) : string * string * string :=
  (objectKind obj, om_Namespace (objectMeta obj), om_Name (objectMeta obj)).

Definition hasLabels (labels : list (string * string)) (m : ObjectMeta) : bool :=
  forallb (fun '(k, v) =>
             match om_Labels m with
             | Some ls => bool_decide (ls !! k = Some v)
             | None => false
             end) labels.

Module Store.

Abbreviation t := (gmap (string * string * string) Object).

(** Modelled from the spec: the cluster object store behind the client,
    which lives outside this file. The spec describes it as a store
    supporting create, get, delete and bulk delete by label, with
    "already exists" and "not found" as distinguishable outcomes.
    Creating an object that is there already fails with "already
    exists" and changes nothing. *)
Definition Create (ctx : Context) (obj : Object) (st : t) : option error * t :=
  match st !! storeKey obj with
  | Some _ => (Some (StatusError StatusReasonAlreadyExists "already exists"), st)
  | None => (None, <[storeKey obj := obj]> st)
  end.

(** Modelled from the spec: reading a secret that is not there fails
    with "not found". *)
Definition Get (ctx : Context) (key : ObjectKey) (st : t) : (Secret + error) * t :=
  match st !! ("Secret", key_Namespace key, key_Name key) with
  | Some (SecretObject secret) => (inl secret, st)
  | _ => (inr (StatusError StatusReasonNotFound "not found"), st)
  end.

(** Modelled from the spec: deleting an object that is not there fails
    with "not found". *)
Definition Delete (ctx : Context) (obj : Object) (st : t) : option error * t :=
  match st !! storeKey obj with
  | Some _ => (None, delete (storeKey obj) st)
  | None => (Some (StatusError StatusReasonNotFound "not found"), st)
  end.

(** Modelled from the spec: the bulk deletion removes the pods of the
    namespace that carry the labels. *)
Definition DeleteAllOf (ctx : Context) (namespace : string)
    (labels : list (string * string)) (st : t) : option error * t :=
  (None,
   filter (fun kv : (string * string * string) * Object =>
             ¬ (objectKind kv.2 = "Pod"
                ∧ om_Namespace (objectMeta kv.2) = namespace
                ∧ hasLabels labels (objectMeta kv.2) = true)) st).

#[export] Instance client : Client t := {
  client_Create := Create;
  client_Get := Get;
  client_Delete := Delete;
  client_DeleteAllOf := DeleteAllOf
}.

End Store.

(** ** A scripted cluster and concrete collaborators, for the examples *)

Module Demo.

(** The object store, the parameters and image digests that resolve,
    the pods whose run fails, the pods during whose run the caller
    cancels, and whether the caller has cancelled. *)
Record Sim := {
  sim_store : Store.t;
  sim_params : gmap string string;
  sim_digests : gmap string string;
  sim_failing : list string;
  sim_cancelling : list string;
  sim_cancelled : bool
}.

Definition with_store (f : Store.t -> Store.t) (e : Sim) : Sim :=
  {| sim_store := f (sim_store e); sim_params := sim_params e;
     sim_digests := sim_digests e; sim_failing := sim_failing e;
     sim_cancelling := sim_cancelling e; sim_cancelled := sim_cancelled e |}.

Definition cancel (e : Sim) : Sim :=
  {| sim_store := sim_store e; sim_params := sim_params e;
     sim_digests := sim_digests e; sim_failing := sim_failing e;
     sim_cancelling := sim_cancelling e; sim_cancelled := true |}.

Definition lift {A} (f : Store.t -> A * Store.t) (e : Sim) : A * Sim :=
  let '(a, st) := f (sim_store e) in (a, with_store (fun _ => st) e).

Definition mem (x : string) (l : list string) : bool := existsb (String.eqb x) l.

#[export] Instance client : Client Sim := {
  client_Create ctx obj := lift (Store.Create ctx obj);
  client_Get ctx key := lift (Store.Get ctx key);
  client_Delete ctx obj := lift (Store.Delete ctx obj);
  client_DeleteAllOf ctx ns labels := lift (Store.DeleteAllOf ctx ns labels)
}.

#[export] Instance cluster : Cluster Sim := {
  cluster_client := client;
  createOrRestartPod pod e :=
    (None, with_store (insert (storeKey (PodObject pod)) (PodObject pod)) e);
  waitForPodCompletion ctx ns name artifacts e :=
    match ctx with
    | Caller =>
        if mem name (sim_cancelling e)
        then ((None, Some (Errorf "context canceled")), cancel e)
        else if mem name (sim_failing e)
        then ((None, Some (Errorf "the pod failed")), e)
        else ((None, None), e)
    | _ =>
        if mem name (sim_failing e)
        then ((None, Some (Errorf "the pod failed")), e)
        else ((None, None), e)
    end;
  notifier_SubTests artifacts prefix e := [{| tc_Name := prefix; tc_Failure := None |}];
  params_Get n e :=
    match sim_params e !! n with
    | Some v => inl v
    | None => inr (Errorf ("no value for " +:+ n))
    end;
  resolveOptionalOperator e := inl None;
  ImageDigestFor ns stream tag e :=
    match sim_digests e !! (stream +:+ ":" +:+ tag) with
    | Some ref => inl ref
    | None => inr (Errorf "no such image")
    end;
  caller_Done := sim_cancelled
}.

(** Collaborators: a base pod with one container that holds the command,
    resources that parse unless a quantity is empty. *)
Definition basePod (jobSpec : JobSpec) (podName containerName : string)
    (command : list string) (image : string) (resources : ResourceRequirements)
    (artifactDir : string) : Pod + error :=
  inl {| pod_ObjectMeta :=
           {| om_Name := podName; om_Namespace := job_Namespace jobSpec;
              om_Labels := Some {[ "created-by-ci" := "true" ]};
              om_Annotations := Some ∅; om_OwnerReferences := [] |};
         pod_Spec :=
           {| spec_Volumes := []; spec_InitContainers := [];
              spec_Containers :=
                [{| c_Name := containerName; c_Image := image; c_Command := command;
                    c_Args := []; c_Env := []; c_Resources := resources;
                    c_VolumeMounts := [];
                    c_TerminationMessagePolicy := "FallbackToLogsOnError" |}];
              spec_ActiveDeadlineSeconds := None; spec_ServiceAccountName := "";
              spec_TerminationGracePeriodSeconds := None |};
         pod_Status := {| status_Phase := ""; status_Reason := "" |} |}.

Definition parseResources (r : ResourceRequirements) : ResourceRequirements + error :=
  if existsb (fun kv : string * string => String.eqb kv.2 "") (res_Requests r ++ res_Limits r)
  then inr (Errorf "invalid resource request")
  else inl r.

#[export] Instance collaborators : Collaborators := {
  PipelineImageStream := "pipeline";
  LatestReleaseName := "latest";
  ReleaseStreamFor release := if String.eqb release "latest" then "stable"
                              else "stable-" +:+ release;
  LinkForImage stream tag := ExternalImageLink stream tag;
  FromImageTag step :=
    match step_FromImage step with
    | Some r => Some (istag_Namespace r +:+ "-" +:+ istag_Name r +:+ "-" +:+ istag_Tag r)
    | None => None
    end;
  IsPipelineImage cfg image := mem image (cfg_Images cfg);
  BuildsImage cfg image := false;
  DependencyParts cfg dep :=
    if mem (dep_Name dep) (cfg_Images cfg) then ("pipeline", dep_Name dep, true)
    else ("stable", dep_Name dep, true);
  ClusterType p := p;
  ReleaseImageEnv release := "RELEASE_IMAGE_" +:+ release;
  ImageFormatEnv := "IMAGE_FORMAT";
  LinkForEnv e :=
    if String.eqb e "IMAGE_FORMAT" then Some ImagesReadyLink
    else if String.eqb e "RELEASE_IMAGE_latest" then Some (ReleasePayloadImageLink "latest")
    else None;
  DefaultLeaseEnv := "LEASED_RESOURCE";
  ProwJobIdLabel := "prow.k8s.io/id";
  annotationSaveContainerLogs := "ci-operator.openshift.io/save-container-logs";
  homeVolumeName := "home";
  apiCIRegistry := "registry.svc.ci.openshift.org";
  resourcesFor := parseResources;
  generateBasePod := basePod
}.

Definition noResources : ResourceRequirements :=
  {| res_Requests := []; res_Limits := [] |}.

Definition badResources : ResourceRequirements :=
  {| res_Requests := [("cpu", "")]; res_Limits := [] |}.

(** A step [from: src] that runs [commands]. *)
Definition step (as_ commands : string) : LiteralTestStep :=
  {| step_As := as_; step_From := "src"; step_FromImage := None;
     step_Commands := commands; step_ArtifactDir := "";
     step_Resources := noResources; step_Credentials := [];
     step_Environment := []; step_Dependencies := []; step_Cli := "";
     step_ActiveDeadlineSeconds := None;
     step_TerminationGracePeriodSeconds := None;
     step_ReadonlySharedDir := false; step_OptionalOnSuccess := None |}.

Definition with_resources (r : ResourceRequirements) (st : LiteralTestStep)
    : LiteralTestStep :=
  {| step_As := step_As st; step_From := step_From st;
     step_FromImage := step_FromImage st; step_Commands := step_Commands st;
     step_ArtifactDir := step_ArtifactDir st; step_Resources := r;
     step_Credentials := step_Credentials st;
     step_Environment := step_Environment st;
     step_Dependencies := step_Dependencies st; step_Cli := step_Cli st;
     step_ActiveDeadlineSeconds := step_ActiveDeadlineSeconds st;
     step_TerminationGracePeriodSeconds := step_TerminationGracePeriodSeconds st;
     step_ReadonlySharedDir := step_ReadonlySharedDir st;
     step_OptionalOnSuccess := step_OptionalOnSuccess st |}.

Definition with_optional (o : option bool) (st : LiteralTestStep) : LiteralTestStep :=
  {| step_As := step_As st; step_From := step_From st;
     step_FromImage := step_FromImage st; step_Commands := step_Commands st;
     step_ArtifactDir := step_ArtifactDir st; step_Resources := step_Resources st;
     step_Credentials := step_Credentials st;
     step_Environment := step_Environment st;
     step_Dependencies := step_Dependencies st; step_Cli := step_Cli st;
     step_ActiveDeadlineSeconds := step_ActiveDeadlineSeconds st;
     step_TerminationGracePeriodSeconds := step_TerminationGracePeriodSeconds st;
     step_ReadonlySharedDir := step_ReadonlySharedDir st;
     step_OptionalOnSuccess := o |}.

Definition with_cli (release : string) (readonly : bool) (st : LiteralTestStep)
    : LiteralTestStep :=
  {| step_As := step_As st; step_From := step_From st;
     step_FromImage := step_FromImage st; step_Commands := step_Commands st;
     step_ArtifactDir := step_ArtifactDir st; step_Resources := step_Resources st;
     step_Credentials := step_Credentials st;
     step_Environment := step_Environment st;
     step_Dependencies := step_Dependencies st; step_Cli := release;
     step_ActiveDeadlineSeconds := step_ActiveDeadlineSeconds st;
     step_TerminationGracePeriodSeconds := step_TerminationGracePeriodSeconds st;
     step_ReadonlySharedDir := readonly;
     step_OptionalOnSuccess := step_OptionalOnSuccess st |}.


Definition with_credentials (cs : list CredentialReference) (st : LiteralTestStep)
    : LiteralTestStep :=
  {| step_As := step_As st; step_From := step_From st;
     step_FromImage := step_FromImage st; step_Commands := step_Commands st;
     step_ArtifactDir := step_ArtifactDir st; step_Resources := step_Resources st;
     step_Credentials := cs;
     step_Environment := step_Environment st;
     step_Dependencies := step_Dependencies st; step_Cli := step_Cli st;
     step_ActiveDeadlineSeconds := step_ActiveDeadlineSeconds st;
     step_TerminationGracePeriodSeconds := step_TerminationGracePeriodSeconds st;
     step_ReadonlySharedDir := step_ReadonlySharedDir st;
     step_OptionalOnSuccess := step_OptionalOnSuccess st |}.

(** The test [e2e] in the namespace [ci-op-1], with the given phases. *)
Definition e2e (allow : option bool) (profile : string)
    (pre test post : list LiteralTestStep) : multiStageTestStep :=
  {| name := "e2e"; profile := profile;
     config := {| cfg_Metadata := {| meta_Org := "org"; meta_Repo := "repo";
                                     meta_Branch := "main"; meta_Variant := "" |};
                  cfg_Images := ["src"] |};
     env := ∅; artifactDir := "";
     jobSpec := {| job_Namespace := "ci-op-1"; job_JobNameHash := "abcde";
                   job_Owner := None |};
     pre := pre; test := test; post := post;
     allowSkipOnSuccess := allow; leases := [] |}.

Definition sim (failing cancelling : list string) : Sim :=
  {| sim_store := ∅; sim_params := ∅; sim_digests := ∅;
     sim_failing := failing; sim_cancelling := cancelling;
     sim_cancelled := false |}.

Definition world (e : Sim) : World Sim := {| ext := e; calls := []; subTests := [] |}.

End Demo.

(** * Vocabulary of the properties *)

(** ** Credentials *)

(** What identifies a credential: its namespace and its name. *)
Definition credentialPair (c : CredentialReference) : string * string :=
  (cred_Namespace c, cred_Name c).

(** ** Workload builder *)

(** What one step contributes to the batch: pods and errors. *)
Definition contribution (o : StepOutcome) : list Pod * list error :=
  match o with
  | Skipped => ([], [])
  | Failed errs => ([], errs)
  | Built pod => ([pod], [])
  end.

Definition builtPods (outs : list StepOutcome) : list Pod :=
  flat_map (fun o => (contribution o).1) outs.

Definition recordedErrors (outs : list StepOutcome) : list error :=
  flat_map (fun o => (contribution o).2) outs.

(** The skip condition, as the claims word it. *)
Definition skipFlags (s : multiStageTestStep) (hasPrevErrs : bool) (step : LiteralTestStep)
    : Prop :=
  allowSkipOnSuccess s = Some true /\
  step_OptionalOnSuccess step = Some true /\
  hasPrevErrs = false.

(** The pod has a first container. *)
Definition hasMain (pod : Pod) : Prop := spec_Containers (pod_Spec pod) <> [].

(** What [generatePods] relies on in the pods [generateBasePod] returns:
    label and annotation maps that are not nil, and a first container. *)
Definition baseWellFormed `{Collaborators} : Prop :=
  forall jobSpec podName containerName command image resources dir pod,
    generateBasePod jobSpec podName containerName command image resources dir = inl pod ->
    is_Some (pod_Labels pod) /\ is_Some (pod_Annotations pod) /\ hasMain pod.

(** ** Phase runner *)

(** What the call log says: the pods submitted, the bulk deletions with
    their context, and the contexts of the waits. *)
Definition submitted (evs : list Event) : list string :=
  omap (fun ev => match ev with
                  | CallCreateOrRestartPod pod => Some (pod_Name pod)
                  | _ => None
                  end) evs.

Definition bulkDeletes (evs : list Event)
    : list (Context * string * list (string * string)) :=
  omap (fun ev => match ev with
                  | CallDeleteAllOf ctx ns labels => Some (ctx, ns, labels)
                  | _ => None
                  end) evs.

Definition waitContexts (evs : list Event) : list Context :=
  omap (fun ev => match ev with
                  | CallWaitForPodCompletion ctx _ _ => Some ctx
                  | _ => None
                  end) evs.

(** The outcomes of a sequence of runs up to the first failure, which is
    the last one kept. *)
Fixpoint uptoFirstFailure (outs : list (string * option error))
    : list (string * option error) :=
  match outs with
  | [] => []
  | (n, None) :: outs => (n, None) :: uptoFirstFailure outs
  | (n, Some err) :: _ => [(n, Some err)]
  end.

(** The runs that take place, with and without short-circuit. *)
Definition effective (shortCircuit : bool) (outs : list (string * option error))
    : list (string * option error) :=
  if shortCircuit then uptoFirstFailure outs else outs.

Section RunAll.
Context `{Collaborators} `{Cluster E}.
Open Scope run_scope.

(** One iteration of the loop of [runPods], without the bookkeeping. *)
Definition runOne (s : multiStageTestStep) (ctx : Context) (pod : Pod)
    : M E (option error) :=
  notifier <- chooseNotifier s pod ;;
  runPod s ctx pod notifier.

(** Every pod run in declaration order, each one in the world the
    previous one left: the name of the pod and the result of its run. *)
Fixpoint runAll (s : multiStageTestStep) (ctx : Context) (pods : list Pod) (w : World E)
    : list (string * option error) :=
  match pods with
  | [] => []
  | pod :: pods =>
      let '(err, w') := runOne s ctx pod w in
      (pod_Name pod, err) :: runAll s ctx pods w'
  end.

End RunAll.

Section Adds.
Context `{Collaborators} `{Cluster E}.

(** The calls a piece of code adds to the log, summarised. *)
Definition adds (w w' : World E) (names : list string) (ctx : Context) : Prop :=
  exists evs,
    calls w' = calls w ++ evs /\
    submitted evs = names /\
    bulkDeletes evs = [] /\
    Forall (eq ctx) (waitContexts evs).

End Adds.

(** The errors [runSteps] records for the bulk deletion: none when it
    succeeds or finds nothing. *)
Definition cleanupErrors (s : multiStageTestStep) (deleted : option error) : list error :=
  match deleted with
  | Some err =>
      if IsNotFound err then []
      else [Wrapf ("failed to delete pods with label " +:+ MultiStageTestLabel
                   +:+ "=" +:+ name s +:+ ": ") err ""]
  | None => []
  end.

(** The bulk deletion of the pods of the test: context, namespace, labels. *)
Definition cleanupCall (s : multiStageTestStep)
    : Context * string * list (string * string) :=
  (cleanupCtx, job_Namespace (jobSpec s), [(MultiStageTestLabel, name s)]).

(** [errs = append(errs, err)] when [err] is not nil. *)
Definition errorList (r : option error) : list error :=
  match r with
  | Some err => [err]
  | None => []
  end.

(** [err != nil] *)
Definition isSome {A} (o : option A) : bool :=
  match o with
  | Some _ => true
  | None => false
  end.

(** The error [run] records for a phase that failed. *)
Definition phaseError (s : multiStageTestStep) (phase : string) (r : option error)
    : list error :=
  match r with
  | Some err => [Wrapf (Str.quote (name s) +:+ " " +:+ phase +:+ " steps failed: ") err ""]
  | None => []
  end.

Section ThreePhases.
Context `{Collaborators} `{Cluster E}.

(** Pre runs first, under the caller's context and with short-circuit.
    Test runs, in the same way, only if Pre returned no error; otherwise
    nothing happens in its place. Post runs in any case, under the
    background context, without short-circuit, and is told whether Pre or
    Test returned an error. The result aggregates the errors of the
    phases. *)
Definition threePhases (s : multiStageTestStep) (ctx : Context) (env : list EnvVar)
    (w : World E) : exec (option error * World E) :=
  '(r1, w1) ← runSteps s ctx (pre s) env true false w;
  '(r2, w2) ← match r1 with
              | Some _ => Normal (None, w1)
              | None => runSteps s ctx (test s) env true false w1
              end;
  '(r3, w3) ← runSteps s Background (post s) env false (isSome r1 || isSome r2) w2;
  Normal (NewAggregate (phaseError s "pre" r1 ++ phaseError s "test" r2
                        ++ phaseError s "post" r3), w3).

End ThreePhases.

(** ** Access provisioning on the object store *)

(** Whether the source secret of a credential is in the store. *)
Definition foundIn (st : Store.t) (c : CredentialReference) : bool :=
  match st !! ("Secret", cred_Namespace c, cred_Name c) with
  | Some (SecretObject _) => true
  | _ => false
  end.

(** The copies to create are filed in the test namespace under their key
    in the map. *)
Definition filedUnder (namespace : string) (m : gmap string Secret) : Prop :=
  forall n secret,
    m !! n = Some secret ->
    storeKey (SecretObject secret) = ("Secret", namespace, n).

(** The credentials of all the steps, as [createCredentials] walks them. *)
Definition allCredentials (s : multiStageTestStep) : list CredentialReference :=
  flat_map step_Credentials (pre s ++ (test s ++ post s)).

(** The objects provisioning leaves in the test namespace: the shared
    secret, the mirrored credentials and the three RBAC objects. *)
Definition provisioned (s : multiStageTestStep) (st : Store.t) : Prop :=
  (forall n, n ∈ map createCredentials_name (allCredentials s) ->
             is_Some (st !! ("Secret", job_Namespace (jobSpec s), n))) /\
  is_Some (st !! ("ServiceAccount", job_Namespace (jobSpec s), name s)) /\
  is_Some (st !! ("Role", job_Namespace (jobSpec s), name s)) /\
  is_Some (st !! ("RoleBinding", job_Namespace (jobSpec s), name s)).

(** * Inputs of the examples *)

Module Inputs.
Import Demo.

Definition nsA : CredentialReference :=
  {| cred_Namespace := "ns-a"; cred_Name := "name"; cred_MountPath := "/first" |}.

Definition nsB : CredentialReference :=
  {| cred_Namespace := "ns"; cred_Name := "a-name"; cred_MountPath := "/second" |}.

Definition remounted : CredentialReference :=
  {| cred_Namespace := "ns-a"; cred_Name := "name"; cred_MountPath := "/third" |}.

Definition optional : LiteralTestStep := with_optional (Some true) (step "gather" "true").
Definition plain : LiteralTestStep := step "setup" "echo hi".
Definition unbuildable : LiteralTestStep :=
  with_resources badResources (with_optional (Some false) (step "bad" "true")).

Definition allowing : multiStageTestStep :=
  e2e (Some true) "" [optional; plain; unbuildable] [] [].

(** The outcome of each step, computed. *)
Definition outcomesOf (s : multiStageTestStep) (env : list EnvVar) (hp : bool) (e : Sim)
    (steps : list LiteralTestStep) : list StepOutcome :=
  map (fun step =>
         match generatePod s env hp e step with
         | Normal o => o
         | Panics => Skipped
         end) steps.

Definition outs : list StepOutcome :=
  Eval vm_compute in
    outcomesOf allowing [] false (sim [] []) (pre allowing).

(** A step that names the CLI of release 4.10 and mounts the shared
    directory read-only. *)
Definition readonlyCli : LiteralTestStep := with_cli "4.10" true (step "cli" "oc version").

Definition cliTest : multiStageTestStep := e2e None "" [readonlyCli] [] [].

Definition mainContainer (o : exec StepOutcome) : option Container :=
  match o with
  | Normal (Built pod) => head (spec_Containers (pod_Spec pod))
  | _ => None
  end.

(** A step whose source image is external: [os] is not a pipeline image. *)
Definition external : LiteralTestStep :=
  {| step_As := "install"; step_From := "os"; step_FromImage := None;
     step_Commands := "true"; step_ArtifactDir := "";
     step_Resources := noResources; step_Credentials := [];
     step_Environment := []; step_Dependencies := []; step_Cli := "";
     step_ActiveDeadlineSeconds := None; step_TerminationGracePeriodSeconds := None;
     step_ReadonlySharedDir := false; step_OptionalOnSuccess := None |}.

Definition profiled : multiStageTestStep := e2e None "aws" [external] [] [].
Definition unprofiled : multiStageTestStep := e2e None "" [external] [] [].
Definition internalOnly : multiStageTestStep := e2e None "" [step "setup" "true"] [] [].

Definition three : multiStageTestStep :=
  e2e None "" [step "setup" "true"] [step "run" "true"] [step "gather" "true"].

Definition abc : multiStageTestStep :=
  e2e None "" [step "a" "true"; step "b" "true"; step "c" "true"] []
    [step "a" "true"; step "b" "true"; step "c" "true"].

(** The pods submitted by a complete run, and whether it returned an
    error. *)
Definition summary (r : exec (option error * World Sim))
    : option (list string * bool * list (Context * string * list (string * string))) :=
  match r with
  | Normal (err, w) => Some (submitted (calls w), isSome err, bulkDeletes (calls w))
  | Panics => None
  end.

Definition abcPods : list Pod :=
  Eval vm_compute in
    match generatePods abc (pre abc) [] false (sim ["e2e-b"] []) with
    | Normal (pods, _) => pods
    | Panics => []
    end.

Definition cancelledWorld : World Sim := world (sim [] ["e2e-run"]).

Definition testPods : list Pod :=
  Eval vm_compute in
    match generatePods three (test three) [] false (ext cancelledWorld) with
    | Normal (pods, _) => pods
    | Panics => []
    end.

Definition donor : Secret :=
  {| secret_ObjectMeta :=
       {| om_Name := "aws"; om_Namespace := "test-credentials";
          om_Labels := None; om_Annotations := None; om_OwnerReferences := [] |};
     secret_TypeMeta := "Secret"; secret_Type := "Opaque";
     secret_Data := [("key", "value")]; secret_StringData := [] |}.

Definition aws : CredentialReference :=
  {| cred_Namespace := "test-credentials"; cred_Name := "aws"; cred_MountPath := "/aws" |}.

Definition tested : multiStageTestStep :=
  e2e None "" [with_credentials [aws] (step "setup" "true")] [] [].

Definition before : World Store.t :=
  {| ext := {[ ("Secret", "test-credentials", "aws") := SecretObject donor ]};
     calls := []; subTests := [] |}.

Definition nothing : World Store.t := {| ext := ∅; calls := []; subTests := [] |}.

End Inputs.

(** * Properties *)

Import Demo.
Import Inputs.

(** ** Strings *)

Module StrFacts.

Lemma app_assoc (a b c : string) : (a +:+ b) +:+ c = a +:+ (b +:+ c).
Proof. induction a as [|x a IH]; simpl; [reflexivity | f_equal; exact IH]. Qed.

Lemma dropPrefix_app (p s : string) : Str.dropPrefix (p +:+ s) p = Some s.
Proof.
  induction p as [|x p IH]; simpl; [reflexivity|].
  now rewrite Ascii.eqb_refl.
Qed.

Lemma HasPrefix_app (p s : string) : Str.HasPrefix (p +:+ s) p = true.
Proof.
  unfold Str.HasPrefix. induction p as [|x p IH]; simpl; [now destruct s|].
  destruct (Ascii.ascii_dec x x); [assumption | congruence].
Qed.

Lemma TrimPrefix_app (p s : string) : Str.TrimPrefix (p +:+ s) p = s.
Proof. unfold Str.TrimPrefix. now rewrite dropPrefix_app. Qed.

Lemma prefix_nil (s : string) : String.prefix "" s = true.
Proof. now destruct s. Qed.

Lemma prefix_cons (c : Ascii.ascii) (a b : string) :
  String.prefix (String c a) (String c b) = String.prefix a b.
Proof. simpl. destruct (Ascii.ascii_dec c c); [reflexivity | congruence]. Qed.

(** Two strings joined to their rests by a hyphen: when neither of them,
    followed by a hyphen, starts the other, the join determines both
    parts. *)
Lemma hyphen_join_inj (a b x y : string) :
  String.prefix (a +:+ "-") b = false ->
  String.prefix (b +:+ "-") a = false ->
  a +:+ "-" +:+ x = b +:+ "-" +:+ y ->
  a = b /\ x = y.
Proof.
  revert b. induction a as [|c a IH]; intros [|d b] Hab Hba Heq.
  - simpl in Heq. injection Heq as ->. split; reflexivity.
  - simpl in Heq. injection Heq as <- _.
    change ("" +:+ "-") with "-" in Hab. rewrite prefix_cons, prefix_nil in Hab.
    discriminate.
  - simpl in Heq. injection Heq as -> _.
    change ("" +:+ "-") with "-" in Hba. rewrite prefix_cons, prefix_nil in Hba.
    discriminate.
  - simpl in Heq. injection Heq as -> Heq.
    change (String d a +:+ "-") with (String d (a +:+ "-")) in Hab.
    change (String d b +:+ "-") with (String d (b +:+ "-")) in Hba.
    rewrite prefix_cons in Hab, Hba.
    destruct (IH b Hab Hba Heq) as [-> ->]. split; reflexivity.
Qed.

End StrFacts.

(** ** Mirrored credential names *)

Module Credentials.

(** C2, as stated, fails: the credentials [(ns-a, name)] and
    [(ns, a-name)] are distinct and are both mirrored as [ns-a-name]. *)
Lemma mirrored_name_collision :
  credentialPair nsA <> credentialPair nsB /\
  createCredentials_name nsA = "ns-a-name" /\
  createCredentials_name nsB = "ns-a-name".
Proof. split; [discriminate | split; reflexivity]. Qed.

(** C2, amended: the mirrored name is a function of the pair
    (namespace, name), the same one where the secret is created and
    where it is mounted, and two pairs with the same mirrored name are
    equal unless one namespace, followed by a hyphen, is the beginning
    of the other namespace. *)
Theorem mirrored_name_injective_up_to_hyphen (a b : CredentialReference) :
  String.prefix (cred_Namespace a +:+ "-") (cred_Namespace b) = false ->
  String.prefix (cred_Namespace b +:+ "-") (cred_Namespace a) = false ->
  addCredentials_name a = createCredentials_name a /\
  (credentialPair a = credentialPair b -> createCredentials_name a = createCredentials_name b) /\
  (createCredentials_name a = createCredentials_name b -> credentialPair a = credentialPair b).
Proof.
  intros Hab Hba. split; [reflexivity|]. split.
  - unfold credentialPair, createCredentials_name. intros [= -> ->]. reflexivity.
  - unfold credentialPair, createCredentials_name. intros Heq.
    destruct (StrFacts.hyphen_join_inj _ _ _ _ Hab Hba Heq) as [-> ->]. reflexivity.
Qed.

Lemma mirrored_name_injective_up_to_hyphen_witness :
  addCredentials_name nsA = createCredentials_name nsA /\
  (credentialPair nsA = credentialPair remounted ->
   createCredentials_name nsA = createCredentials_name remounted) /\
  (createCredentials_name nsA = createCredentials_name remounted ->
   credentialPair nsA = credentialPair remounted).
Proof. apply (mirrored_name_injective_up_to_hyphen nsA remounted); reflexivity. Defined.

End Credentials.

(** ** The workload builder *)

Section BuilderFacts.
Context `{Collaborators} `{Cluster E}.

Lemma skips_true_iff (s : multiStageTestStep) (hp : bool) (step : LiteralTestStep) :
  skips s hp step = true <-> skipFlags s hp step.
Proof.
  unfold skips, skipFlags.
  destruct (allowSkipOnSuccess s) as [[]|], (step_OptionalOnSuccess step) as [[]|], hp;
    simpl; split; intros; try discriminate; try tauto;
    repeat match goal with H : _ /\ _ |- _ => destruct H end; discriminate.
Qed.

(** The loop body either skips, because of the flags, or records at
    least one error, or builds a pod. *)
Lemma generatePod_outcome (s : multiStageTestStep) (env : list EnvVar) (hp : bool) (e : E)
    (step : LiteralTestStep) (o : StepOutcome) :
  generatePod s env hp e step = Normal o ->
  (o = Skipped <-> skipFlags s hp step) /\
  (forall errs, o = Failed errs -> errs <> []).
Proof.
  unfold generatePod. rewrite <- skips_true_iff.
  destruct (skips s hp step).
  - intros [= <-]. split; [tauto | discriminate].
  - unfold mbind, exec_mbind, exec_bind.
    intros Ho.
    repeat (case_match; simplify_eq/=);
      (split; [split; discriminate | intros ? [= <-]; discriminate]).
Qed.

(** The loop appends, step by step, what each step contributes. *)
Lemma generatePods_loop_outcomes (s : multiStageTestStep) (env : list EnvVar) (hp : bool)
    (e : E) (steps : list LiteralTestStep) :
  forall ret errs ret' errs',
    generatePods_loop s env hp e steps ret errs = Normal (ret', errs') ->
    exists outs,
      Forall2 (fun step o => generatePod s env hp e step = Normal o) steps outs /\
      ret' = ret ++ builtPods outs /\
      errs' = errs ++ recordedErrors outs.
Proof.
  induction steps as [|step steps IH]; intros ret errs ret' errs'; simpl.
  - intros [= <- <-]. exists []. rewrite !app_nil_r. repeat split; constructor.
  - unfold mbind, exec_mbind, exec_bind.
    destruct (generatePod s env hp e step) as [o|] eqn:Ho; [|discriminate].
    intros Hloop.
    assert (exists outs,
      Forall2 (fun step o => generatePod s env hp e step = Normal o) steps outs /\
      ret' = (ret ++ (contribution o).1) ++ builtPods outs /\
      errs' = (errs ++ (contribution o).2) ++ recordedErrors outs) as (outs & Hall & -> & ->).
    { destruct o; simpl; rewrite ?app_nil_r; apply IH; exact Hloop. }
    exists (o :: outs). split; [constructor; assumption|].
    unfold builtPods, recordedErrors. simpl. rewrite <- !app_assoc. split; reflexivity.
Qed.

End BuilderFacts.

(** *** The base pod never makes the builder panic *)

Section Totality.
Context `{Collaborators} `{Cluster E}.

Lemma with_Container0_ok (f : Container -> Container) (pod : Pod) :
  hasMain pod -> exists pod', with_Container0 f pod = Normal pod' /\ hasMain pod'.
Proof.
  unfold hasMain, with_Container0. destruct (spec_Containers (pod_Spec pod)) eqn:Hc.
  - intros []. reflexivity.
  - intros _. eexists. split; [reflexivity|]. simpl. discriminate.
Qed.

Lemma hasMain_Volumes (f : list Volume -> list Volume) (pod : Pod) :
  hasMain pod -> hasMain (pod_with_Spec (spec_with_Volumes f) pod).
Proof. exact id. Qed.

Lemma hasMain_InitContainers (f : list Container -> list Container) (pod : Pod) :
  hasMain pod -> hasMain (pod_with_Spec (spec_with_InitContainers f) pod).
Proof. exact id. Qed.

Lemma hasMain_ObjectMeta (f : ObjectMeta -> ObjectMeta) (pod : Pod) :
  hasMain pod -> hasMain (pod_with_ObjectMeta f pod).
Proof. exact id. Qed.

Lemma hasMain_scalars d a g (pod : Pod) :
  hasMain pod -> hasMain (pod_with_Spec (spec_with_scalars d a g) pod).
Proof. exact id. Qed.

Lemma hasMain_map (f : Container -> Container) (pod : Pod) :
  hasMain pod -> hasMain (pod_with_Spec (spec_with_Containers (map f)) pod).
Proof.
  unfold hasMain. simpl. destruct (spec_Containers (pod_Spec pod)); [tauto | discriminate].
Qed.

Lemma addSecretWrapper_ok (pod : Pod) :
  hasMain pod -> exists pod', addSecretWrapper pod = Normal pod' /\ hasMain pod'.
Proof.
  intros Hm. unfold addSecretWrapper. apply with_Container0_ok.
  apply hasMain_InitContainers, hasMain_Volumes, Hm.
Qed.

Lemma addProfile_ok (n p : string) (pod : Pod) :
  hasMain pod -> exists pod', addProfile n p pod = Normal pod' /\ hasMain pod'.
Proof.
  intros Hm. unfold addProfile. apply with_Container0_ok, hasMain_Volumes, Hm.
Qed.

Lemma addCliInjector_ok (release : string) (pod : Pod) :
  hasMain pod -> exists pod', addCliInjector release pod = Normal pod' /\ hasMain pod'.
Proof.
  intros Hm. unfold addCliInjector. apply with_Container0_ok.
  apply hasMain_InitContainers, hasMain_Volumes, Hm.
Qed.

Lemma addSecret_ok (secret : string) (pod : Pod) :
  hasMain pod -> exists pod', addSecret secret pod = Normal pod' /\ hasMain pod'.
Proof.
  intros Hm. unfold addSecret.
  edestruct with_Container0_ok as (pod1 & -> & Hm1); [apply hasMain_Volumes, Hm|].
  simpl. apply with_Container0_ok, Hm1.
Qed.

Lemma addCredentials_ok (credentials : list CredentialReference) :
  forall pod, hasMain pod ->
    exists pod', addCredentials credentials pod = Normal pod' /\ hasMain pod'.
Proof.
  induction credentials as [|c cs IH]; intros pod Hm; simpl.
  - eauto.
  - edestruct with_Container0_ok as (pod1 & -> & Hm1); [apply hasMain_Volumes, Hm|].
    simpl. apply IH, Hm1.
Qed.

(** With a well-formed base pod the loop body always ends normally. *)
Lemma generatePod_total (s : multiStageTestStep) (env : list EnvVar) (hp : bool) (e : E)
    (step : LiteralTestStep) :
  baseWellFormed -> exists o, generatePod s env hp e step = Normal o.
Proof.
  intros Hwf. unfold generatePod.
  destruct (skips s hp step); [eauto|].
  destruct (resourcesFor _); [|eauto].
  destruct (generateBasePod _ _ _ _ _ _ _) as [pod|] eqn:Hbase; [|eauto].
  destruct (Hwf _ _ _ _ _ _ _ _ Hbase) as ([ls Hls] & [an Han] & Hm).
  unfold pod_Annotations, pod_Labels in *. simpl. rewrite Han. simpl. rewrite Hls. simpl.
  match goal with
  | |- context [if step_ReadonlySharedDir step then Normal ?p else _] =>
      assert (exists pod1,
        (if step_ReadonlySharedDir step then Normal p else addSecretWrapper p) = Normal pod1
        /\ hasMain pod1) as (pod1 & -> & Hm1)
  end.
  { destruct (step_ReadonlySharedDir step).
    - eexists; split; [reflexivity|]. apply hasMain_map. exact Hm.
    - apply addSecretWrapper_ok, hasMain_map. exact Hm. }
  simpl.
  edestruct with_Container0_ok as (pod2 & -> & Hm2); [exact Hm1|]. simpl.
  edestruct with_Container0_ok as (pod3 & -> & Hm3); [exact Hm2|]. simpl.
  edestruct with_Container0_ok as (pod4 & -> & Hm4); [exact Hm3|]. simpl.
  destruct (envForDependencies s e step) as [depEnv [|depErr depErrs]]; [|eauto].
  edestruct with_Container0_ok as (pod5 & -> & Hm5); [exact Hm4|]. simpl.
  match goal with
  | |- context [mbind _ (if String.eqb (profile s) "" then Normal ?p else ?q)] =>
      assert (exists pod6,
        (if String.eqb (profile s) "" then Normal p else q) = Normal pod6
        /\ hasMain pod6) as (pod6 & -> & Hm6)
  end.
  { destruct (String.eqb (profile s) "").
    - eexists; split; [reflexivity|]. destruct (job_Owner (jobSpec s)); exact Hm5.
    - edestruct addProfile_ok as (pod6 & -> & Hm6);
        [destruct (job_Owner (jobSpec s)); exact Hm5|].
      simpl. apply with_Container0_ok, Hm6. }
  simpl.
  match goal with
  | |- context [mbind _ (if String.eqb (step_Cli step) "" then Normal ?p else ?q)] =>
      assert (exists pod7,
        (if String.eqb (step_Cli step) "" then Normal p else q) = Normal pod7
        /\ hasMain pod7) as (pod7 & -> & Hm7)
  end.
  { destruct (String.eqb (step_Cli step) "").
    - eauto.
    - apply addCliInjector_ok, Hm6. }
  simpl.
  edestruct addSecret_ok as (pod8 & -> & Hm8); [exact Hm7|]. simpl.
  edestruct addCredentials_ok as (pod9 & -> & Hm9); [exact Hm8|]. simpl.
  eauto.
Qed.

Lemma generatePods_loop_total (s : multiStageTestStep) (env : list EnvVar) (hp : bool)
    (e : E) (steps : list LiteralTestStep) :
  baseWellFormed ->
  forall ret errs, exists ret' errs',
    generatePods_loop s env hp e steps ret errs = Normal (ret', errs').
Proof.
  intros Hwf. induction steps as [|step steps IH]; intros ret errs; simpl; [eauto|].
  destruct (generatePod_total s env hp e step Hwf) as [o ->]. simpl.
  destruct o; apply IH.
Qed.

Lemma generatePods_total (s : multiStageTestStep) (steps : list LiteralTestStep)
    (env : list EnvVar) (hp : bool) (e : E) :
  baseWellFormed -> exists pods err, generatePods s steps env hp e = Normal (pods, err).
Proof.
  intros Hwf. unfold generatePods.
  destruct (generatePods_loop_total s env hp e steps Hwf [] []) as (ret & errs & ->).
  simpl. eauto.
Qed.

End Totality.

Section BatchFacts.
Context `{Collaborators} `{Cluster E}.

(** The converse of [generatePods_loop_outcomes]. *)
Lemma generatePods_loop_of_outcomes (s : multiStageTestStep) (env : list EnvVar)
    (hp : bool) (e : E) (steps : list LiteralTestStep) (outs : list StepOutcome) :
  Forall2 (fun step o => generatePod s env hp e step = Normal o) steps outs ->
  forall ret errs,
    generatePods_loop s env hp e steps ret errs
    = Normal (ret ++ builtPods outs, errs ++ recordedErrors outs).
Proof.
  induction 1 as [|step o steps outs Ho _ IH]; intros ret errs; simpl.
  - now rewrite !app_nil_r.
  - rewrite Ho. simpl. unfold builtPods, recordedErrors in *. simpl.
    destruct o; simpl; rewrite IH, ?app_nil_r, <- ?app_assoc; reflexivity.
Qed.

Lemma generatePods_of_outcomes (s : multiStageTestStep) (env : list EnvVar)
    (hp : bool) (e : E) (steps : list LiteralTestStep) (outs : list StepOutcome) :
  Forall2 (fun step o => generatePod s env hp e step = Normal o) steps outs ->
  generatePods s steps env hp e
  = Normal (builtPods outs, NewAggregate (recordedErrors outs)).
Proof.
  intros Hall. unfold generatePods.
  rewrite (generatePods_loop_of_outcomes s env hp e steps outs Hall). reflexivity.
Qed.


(** A step that fails to build records at least one error. *)
Lemma recordedErrors_Exists (s : multiStageTestStep) (env : list EnvVar) (hp : bool)
    (e : E) (steps : list LiteralTestStep) (outs : list StepOutcome) :
  Forall2 (fun step o => generatePod s env hp e step = Normal o) steps outs ->
  Exists (fun o => exists errs, o = Failed errs) outs ->
  recordedErrors outs <> [].
Proof.
  induction 1 as [|step o steps outs Ho _ IH]; intros Hex; inversion Hex; subst.
  - match goal with Hf : exists _, _ = Failed _ |- _ => destruct Hf as [errs ->] end.
    destruct (generatePod_outcome _ _ _ _ _ _ Ho) as [_ Hne].
    specialize (Hne errs eq_refl). unfold recordedErrors. simpl.
    destruct errs; [congruence | discriminate].
  - unfold recordedErrors in *. simpl. intros Happ.
    apply app_eq_nil in Happ as [_ Happ]. now apply IH.
Qed.

End BatchFacts.


Section SkipPolicy.
Context `{Collaborators} `{Cluster E}.



End SkipPolicy.

Module SkipExamples.





End SkipExamples.

(** ** Build errors end the phase before anything is submitted *)

Section BuildErrors.
Context `{Collaborators} `{Cluster E}.

(** C9: when the loop body fails for some step of the phase, [runSteps]
    returns the aggregate of the recorded errors and leaves the world as
    it was: no call is made, whatever pods the other steps produced. *)
Theorem build_error_aborts_phase (s : multiStageTestStep) (ctx : Context)
    (steps : list LiteralTestStep) (env : list EnvVar) (shortCircuit hasPrevErrs : bool)
    (w : World E) (outs : list StepOutcome) :
  Forall2 (fun step o => generatePod s env hasPrevErrs (ext w) step = Normal o) steps outs ->
  Exists (fun o => exists errs, o = Failed errs) outs ->
  (exists err errs, recordedErrors outs = err :: errs) /\
  generatePods s steps env hasPrevErrs (ext w)
  = Normal (builtPods outs, Some (Aggregate (recordedErrors outs))) /\
  runSteps s ctx steps env shortCircuit hasPrevErrs w
  = Normal (Some (Aggregate (recordedErrors outs)), w).
Proof.
  intros Hall Hex.
  pose proof (recordedErrors_Exists _ _ _ _ _ _ Hall Hex) as Hne.
  pose proof (generatePods_of_outcomes _ _ _ _ _ _ Hall) as Hgen.
  destruct (recordedErrors outs) as [|err errs] eqn:Herrs; [congruence|].
  split; [eauto|]. split; [exact Hgen|].
  unfold runSteps. rewrite Hgen. reflexivity.
Qed.

End BuildErrors.

Module BuildErrorExample.

Lemma build_error_aborts_phase_witness :
  (exists err errs, recordedErrors outs = err :: errs) /\
  generatePods allowing (pre allowing) [] false (sim [] [])
  = Normal (builtPods outs, Some (Aggregate (recordedErrors outs))) /\
  runSteps allowing Caller (pre allowing) [] true false
    (world (sim [] []))
  = Normal (Some (Aggregate (recordedErrors outs)), world (sim [] [])).
Proof.
  apply (build_error_aborts_phase allowing Caller
           (pre allowing) [] true false (world (sim [] [])) outs).
  - repeat constructor.
  - right. right. left. eexists. reflexivity.
Defined.

(** One step of that phase did build a pod, which is never submitted. *)
Lemma built_but_not_run : length (builtPods outs) = 1.
Proof. reflexivity. Qed.

End BuildErrorExample.

(** ** The CLI injector *)

Section CliInjector.
Context `{Collaborators}.

(** A command that starts with the prefix gets the export line right
    after the prefix. *)
Lemma injectCliPath_prefixed (commands : string) :
  injectCliPath (CommandPrefix +:+ commands)
  = CommandPrefix +:+ CliPathExport +:+ Str.nl +:+ commands.
Proof.
  unfold injectCliPath.
  now rewrite StrFacts.HasPrefix_app, StrFacts.TrimPrefix_app.
Qed.

(** What [addCliInjector] does to a pod with a first container: one more
    volume, one more init container that copies the binary from the
    release stream image, and on the first container one more mount, one
    more variable and the rewritten arguments. The command of the
    container is not looked at. *)
Lemma addCliInjector_effect (release : string) (pod : Pod) (c : Container)
    (cs : list Container) :
  spec_Containers (pod_Spec pod) = c :: cs ->
  exists pod' c',
    addCliInjector release pod = Normal pod' /\
    spec_Volumes (pod_Spec pod')
    = spec_Volumes (pod_Spec pod)
      ++ [{| vol_Name := "cli"; vol_VolumeSource := EmptyDirVolumeSource |}] /\
    spec_InitContainers (pod_Spec pod')
    = spec_InitContainers (pod_Spec pod)
      ++ [{| c_Name := "inject-cli";
             c_Image := ReleaseStreamFor release +:+ ":cli";
             c_Command := ["/bin/cp"];
             c_Args := ["/usr/bin/oc"; CliMountPath];
             c_Env := [];
             c_Resources := {| res_Requests := []; res_Limits := [] |};
             c_VolumeMounts := [{| mount_Name := "cli"; mount_MountPath := CliMountPath |}];
             c_TerminationMessagePolicy := "" |}] /\
    spec_Containers (pod_Spec pod') = c' :: cs /\
    c_VolumeMounts c'
    = c_VolumeMounts c ++ [{| mount_Name := "cli"; mount_MountPath := CliMountPath |}] /\
    c_Env c' = c_Env c ++ [{| env_Name := CliEnv; env_Value := CliMountPath |}] /\
    c_Args c' = map injectCliPath (c_Args c) /\
    c_Command c' = c_Command c.
Proof.
  intros Hc. unfold addCliInjector, with_Container0. simpl. rewrite Hc.
  eexists _, _. split; [reflexivity|]. simpl. repeat split.
Qed.

(** After the secret wrapper has moved the command into the arguments,
    the injector finds the script there and rewrites it. *)
Lemma wrapped_command_gets_path (release commands : string) (pod : Pod) (c : Container)
    (cs : list Container) :
  spec_Containers (pod_Spec pod) = c :: cs ->
  c_Command c = ["/bin/bash"; "-c"; CommandPrefix +:+ commands] ->
  c_Args c = [] ->
  exists pod' c',
    (pod1 ← addSecretWrapper pod; addCliInjector release pod1) = Normal pod' /\
    spec_Containers (pod_Spec pod') = c' :: cs /\
    c_Args c'
    = ["/bin/bash"; "-c"; CommandPrefix +:+ CliPathExport +:+ Str.nl +:+ commands].
Proof.
  intros Hc Hcmd Hargs.
  unfold addSecretWrapper, addCliInjector, with_Container0. simpl. rewrite Hc. simpl.
  eexists _, _. split; [reflexivity|]. simpl. split; [reflexivity|].
  rewrite Hcmd.
  cbn [map app c_Args c_with_Env c_with_VolumeMounts c_with_Args c_with_Command].
  rewrite Hargs.
  cbn [map app].
  rewrite injectCliPath_prefixed. reflexivity.
Qed.

End CliInjector.

Module CliExample.

(** C8 on a step with a read-only shared directory: the secret wrapper is
    not applied, the script stays in the command of the container, where
    [addCliInjector] does not look, and the pod carries the CLI volume,
    mount and variable but no export of the search path. *)
Lemma readonly_step_gets_no_path_export :
  exists c,
    mainContainer (generatePod cliTest [] false (sim [] []) readonlyCli) = Some c /\
    c_Command c = ["/bin/bash"; "-c"; CommandPrefix +:+ "oc version"] /\
    c_Args c = [] /\
    c_Env c !! 3%nat = Some {| env_Name := CliEnv; env_Value := CliMountPath |} /\
    c_VolumeMounts c !! 1%nat
    = Some {| mount_Name := "cli"; mount_MountPath := CliMountPath |}.
Proof. eexists. repeat split. Qed.

(** Without the read-only flag the same step gets the export. *)
Lemma writable_step_gets_path_export :
  exists c,
    mainContainer (generatePod cliTest [] false (sim [] [])
                     (with_cli "4.10" false (step "cli" "oc version"))) = Some c /\
    c_Args c
    = ["/bin/bash"; "-c"; CommandPrefix +:+ CliPathExport +:+ Str.nl +:+ "oc version"].
Proof. eexists. repeat split. Qed.

End CliExample.

(** ** Prerequisites *)

Section RequiresFacts.
Context `{Collaborators}.




End RequiresFacts.

Module RequiresExample.


Example Requires_profiled :
  Requires profiled = [ReleasePayloadImageLink "latest"; ImagesReadyLink].
Proof. reflexivity. Qed.

Example Requires_unprofiled : Requires unprofiled = [ReleaseImagesLink "latest"].
Proof. reflexivity. Qed.

Example Requires_internalOnly : Requires internalOnly = [InternalImageLink "src"].
Proof. reflexivity. Qed.

End RequiresExample.

(** ** The phase runner *)

Section RunnerFacts.
Context `{Collaborators} `{Cluster E}.

Lemma adds_refl (w : World E) (ctx : Context) : adds w w [] ctx.
Proof. exists []. rewrite app_nil_r. repeat split. constructor. Qed.

Lemma adds_trans (w1 w2 w3 : World E) (n1 n2 : list string) (ctx : Context) :
  adds w1 w2 n1 ctx -> adds w2 w3 n2 ctx -> adds w1 w3 (n1 ++ n2) ctx.
Proof.
  intros (e1 & Hc1 & Hs1 & Hd1 & Hw1) (e2 & Hc2 & Hs2 & Hd2 & Hw2).
  exists (e1 ++ e2). rewrite Hc2, Hc1, <- app_assoc.
  unfold submitted, bulkDeletes, waitContexts in *. rewrite !omap_app.
  rewrite Hs1, Hs2, Hd1, Hd2. repeat split. now apply Forall_app.
Qed.

Lemma chooseNotifier_adds (s : multiStageTestStep) (pod : Pod) (ctx : Context)
    (w : World E) :
  adds w (chooseNotifier s pod w).2 [] ctx.
Proof.
  unfold chooseNotifier.
  destruct (existsb _ _); [|apply adds_refl].
  unfold bindM, call, retM. simpl.
  eexists. split; [reflexivity|]. repeat split. constructor.
Qed.

Lemma runPod_adds (s : multiStageTestStep) (ctx : Context) (pod : Pod) (artifacts : bool)
    (w : World E) :
  adds w (runPod s ctx pod artifacts w).2 [pod_Name pod] ctx.
Proof.
  unfold runPod, bindM, call. simpl.
  destruct (createOrRestartPod pod (ext w)) as [[err|] e1]; simpl.
  - eexists. split; [reflexivity|]. repeat split. constructor.
  - destruct (waitForPodCompletion _ _ _ _ e1) as [[newPod [err|]] e2]; simpl;
      (eexists [_; _]; split; [now rewrite <- app_assoc|]; repeat split;
       repeat constructor).
Qed.

Lemma runOne_adds (s : multiStageTestStep) (ctx : Context) (pod : Pod) (w : World E) :
  adds w (runOne s ctx pod w).2 [pod_Name pod] ctx.
Proof.
  unfold runOne, bindM.
  pose proof (chooseNotifier_adds s pod ctx w) as Hn.
  destruct (chooseNotifier s pod w) as [notifier w1]. simpl in Hn.
  pose proof (runPod_adds s ctx pod notifier w1) as Hr.
  exact (adds_trans _ _ _ [] _ _ Hn Hr).
Qed.

(** The loop of [runPods] runs the effective prefix of the pods, in
    order, and collects the errors of those runs. *)
Lemma runPods_loop_spec (s : multiStageTestStep) (ctx : Context) (shortCircuit : bool)
    (pods : list Pod) :
  forall errs w,
    (runPods_loop s ctx shortCircuit pods errs w).1
    = errs ++ omap snd (effective shortCircuit (runAll s ctx pods w)) /\
    adds w (runPods_loop s ctx shortCircuit pods errs w).2
      (map fst (effective shortCircuit (runAll s ctx pods w))) ctx.
Proof.
  induction pods as [|pod pods IH]; intros errs w.
  - simpl. destruct shortCircuit; simpl; rewrite app_nil_r; split;
      try reflexivity; apply adds_refl.
  - cbn [runPods_loop runAll].
    pose proof (runOne_adds s ctx pod w) as Hone. unfold runOne, bindM in *.
    destruct (chooseNotifier s pod w) as [notifier w1].
    destruct (runPod s ctx pod notifier w1) as [[err|] w2]; simpl in Hone.
    + destruct shortCircuit.
      * simpl. split; [reflexivity | exact Hone].
      * destruct (IH (errs ++ [err]) w2) as [IH1 IH2]. simpl in *.
        rewrite IH1, <- app_assoc. split; [reflexivity|].
        exact (adds_trans _ _ _ [_] _ _ Hone IH2).
    + destruct (IH errs w2) as [IH1 IH2].
      destruct shortCircuit; simpl in *; rewrite IH1; (split; [reflexivity|]);
        exact (adds_trans _ _ _ [_] _ _ Hone IH2).
Qed.

Lemma runAll_names (s : multiStageTestStep) (ctx : Context) (pods : list Pod) :
  forall w, map fst (runAll s ctx pods w) = map pod_Name pods.
Proof.
  induction pods as [|pod pods IH]; intros w; simpl; [reflexivity|].
  destruct (runOne s ctx pod w) as [err w']. simpl. now rewrite IH.
Qed.

End RunnerFacts.

Section PhaseFacts.
Context `{Collaborators} `{Cluster E}.

Lemma uptoFirstFailure_prefix (outs : list (string * option error)) :
  exists k, uptoFirstFailure outs = take k outs.
Proof.
  induction outs as [|[n [err|]] outs [k IH]].
  - exists 0%nat. reflexivity.
  - exists 1%nat. simpl. now rewrite take_0.
  - exists (S k). simpl. now rewrite IH.
Qed.

Lemma uptoFirstFailure_failure_last (outs : list (string * option error)) :
  forall (i : nat) n err,
    uptoFirstFailure outs !! i = Some (n, Some err) ->
    S i = length (uptoFirstFailure outs).
Proof.
  induction outs as [|[m [e|]] outs IH]; intros i n err; simpl.
  - discriminate.
  - destruct i; [reflexivity | discriminate].
  - destruct i as [|i]; simpl; [discriminate|]. intros Hi. f_equal. eapply IH, Hi.
Qed.

Lemma uptoFirstFailure_no_failure (outs : list (string * option error)) :
  omap snd (uptoFirstFailure outs) = [] -> uptoFirstFailure outs = outs.
Proof.
  induction outs as [|[m [e|]] outs IH]; simpl; [reflexivity | discriminate |].
  intros Hnone. now rewrite IH.
Qed.

Lemma runPods_spec (s : multiStageTestStep) (ctx : Context) (pods : list Pod)
    (shortCircuit : bool) (w : World E) :
  (runPods s ctx pods shortCircuit w).1
  = NewAggregate (omap snd (effective shortCircuit (runAll s ctx pods w))) /\
  adds w (runPods s ctx pods shortCircuit w).2
    (map fst (effective shortCircuit (runAll s ctx pods w))) ctx.
Proof.
  unfold runPods, bindM, retM.
  destruct (runPods_loop_spec s ctx shortCircuit pods [] w) as [Herrs Hadds].
  destruct (runPods_loop s ctx shortCircuit pods [] w) as [errs w']. simpl in *.
  rewrite Herrs. split; [reflexivity | exact Hadds].
Qed.

(** What [runSteps] does once the batch is built without error. *)
Lemma runSteps_built (s : multiStageTestStep) (ctx : Context)
    (steps : list LiteralTestStep) (env : list EnvVar) (shortCircuit hasPrevErrs : bool)
    (w : World E) (pods : list Pod) :
  generatePods s steps env hasPrevErrs (ext w) = Normal (pods, None) ->
  exists w' evs,
    runSteps s ctx steps env shortCircuit hasPrevErrs w
    = Normal
        (NewAggregate
           (errorList (runPods s ctx pods shortCircuit w).1 ++
            if ctx_Done ctx (ext (runPods s ctx pods shortCircuit w).2)
            then cleanupErrors s
                   (client_DeleteAllOf cleanupCtx (job_Namespace (jobSpec s))
                      [(MultiStageTestLabel, name s)]
                      (ext (runPods s ctx pods shortCircuit w).2)).1
                 ++ [Errorf "cancelled"]
            else []), w') /\
    calls w' = calls w ++ evs /\
    submitted evs = map fst (effective shortCircuit (runAll s ctx pods w)) /\
    Forall (eq ctx) (waitContexts evs) /\
    bulkDeletes evs
    = if ctx_Done ctx (ext (runPods s ctx pods shortCircuit w).2)
      then [cleanupCall s] else [].
Proof.
  intros Hgen. unfold runSteps. rewrite Hgen. simpl.
  destruct (runPods_spec s ctx pods shortCircuit w) as [_ (evs & Hcalls & Hsub & Hdel & Hwait)].
  unfold bindM at 1.
  destruct (runPods s ctx pods shortCircuit w) as [ran w1]. simpl in *.
  unfold cleanupIfCancelled, bindM, readM, call, retM. simpl.
  destruct (ctx_Done ctx (ext w1)).
  - destruct (client_DeleteAllOf cleanupCtx (job_Namespace (jobSpec s))
                [(MultiStageTestLabel, name s)] (ext w1)) as [deleted e2]. simpl.
    eexists _, (evs ++ [_]). split.
    + f_equal. f_equal. f_equal.
      destruct ran, deleted as [err|]; simpl; try reflexivity;
        destruct (IsNotFound err); reflexivity.
    + simpl. rewrite Hcalls, <- app_assoc. split; [reflexivity|].
      unfold submitted, waitContexts, bulkDeletes in *. rewrite !omap_app. simpl.
      rewrite Hsub, Hdel, !app_nil_r. repeat split. exact Hwait.
  - exists w1, evs. rewrite app_nil_r.
    split; [destruct ran; reflexivity|]. repeat split; assumption.
Qed.

Lemma ctx_Done_Caller (ctx : Context) (e : E) : ctx_Done ctx e = true -> ctx = Caller.
Proof. destruct ctx; simpl; [discriminate | discriminate | reflexivity]. Qed.

(** The calls of a phase: the waits carry the context of the phase, and a
    bulk deletion can only come from a phase run under the caller's
    context. *)
Lemma runSteps_calls (s : multiStageTestStep) (ctx : Context)
    (steps : list LiteralTestStep) (env : list EnvVar) (shortCircuit hasPrevErrs : bool)
    (w w' : World E) (r : option error) :
  runSteps s ctx steps env shortCircuit hasPrevErrs w = Normal (r, w') ->
  exists evs,
    calls w' = calls w ++ evs /\
    Forall (eq ctx) (waitContexts evs) /\
    (ctx <> Caller -> bulkDeletes evs = []).
Proof.
  intros Hrun.
  destruct (generatePods s steps env hasPrevErrs (ext w)) as [[pods [err|]]|] eqn:Hgen.
  - unfold runSteps in Hrun. rewrite Hgen in Hrun. simpl in Hrun.
    injection Hrun as <- <-. exists []. rewrite app_nil_r. repeat split. constructor.
  - destruct (runSteps_built s ctx steps env shortCircuit hasPrevErrs w pods Hgen)
      as (w2 & evs & Heq & Hcalls & _ & Hwait & Hdel).
    rewrite Heq in Hrun. injection Hrun as _ <-.
    exists evs. repeat split; try assumption.
    intros Hctx. rewrite Hdel.
    destruct (ctx_Done ctx _) eqn:Hdone; [|reflexivity].
    apply ctx_Done_Caller in Hdone. contradiction.
  - unfold runSteps in Hrun. rewrite Hgen in Hrun. discriminate.
Qed.

End PhaseFacts.

(** *** The three phases, in the words of the specification *)

Section Phases.
Context `{Collaborators} `{Cluster E}.

Lemma runPhases_threePhases (s : multiStageTestStep) (ctx : Context) (env : list EnvVar)
    (w : World E) :
  runPhases s ctx env w = threePhases s ctx env w.
Proof.
  unfold runPhases, threePhases, mbind, exec_mbind, exec_bind.
  destruct (runSteps s ctx (pre s) env true false w) as [[[e1|] w1]|]; simpl;
    [| |reflexivity].
  - destruct (runSteps s Background (post s) env false true w1) as [[[e3|] w3]|];
      reflexivity.
  - destruct (runSteps s ctx (test s) env true false w1) as [[[e2|] w2]|]; simpl;
      [| |reflexivity].
    + destruct (runSteps s Background (post s) env false true w2) as [[[e3|] w3]|];
        reflexivity.
    + destruct (runSteps s Background (post s) env false false w2) as [[[e3|] w3]|];
        reflexivity.
Qed.

(** C3: once the preparation has succeeded, [run] is the three phases as
    described above: no Test after a failed Pre, Post in every case with
    the background context and the flag of earlier failures, and the
    errors of the phases aggregated. The Post phase waits under the
    background context only and, as that context is never done, issues no
    bulk deletion. *)
Theorem run_phases (s : multiStageTestStep) (ctx : Context) (w : World E) :
  run s ctx w
  = match prepare s ctx w with
    | (inr err, w0) => Normal (Some err, w0)
    | (inl env, w0) => threePhases s ctx env w0
    end /\
  (forall e, ctx_Done Background e = false) /\
  (forall env hasPrevErrs w1 r w2,
     runSteps s Background (post s) env false hasPrevErrs w1 = Normal (r, w2) ->
     exists evs,
       calls w2 = calls w1 ++ evs /\
       Forall (eq Background) (waitContexts evs) /\
       bulkDeletes evs = []).
Proof.
  split; [|split].
  - unfold run. destruct (prepare s ctx w) as [[env|err] w0]; [|reflexivity].
    apply runPhases_threePhases.
  - reflexivity.
  - intros env hp w1 r w2 Hrun.
    destruct (runSteps_calls _ _ _ _ _ _ _ _ _ Hrun) as (evs & Hcalls & Hwait & Hdel).
    exists evs. repeat split; try assumption. apply Hdel. discriminate.
Qed.

(** C4: the pods of a phase are run one after the other in the order of
    the batch; the pods submitted are those of the effective runs, and
    the result aggregates the errors of those runs. Without short-circuit
    every pod is run. With short-circuit the effective runs are a prefix
    of all the runs in which only the last one can have failed, and they
    are all the runs when none failed. [run] asks for short-circuit in
    Pre and Test and not in Post. *)
Theorem runPods_order_and_short_circuit (s : multiStageTestStep) (ctx : Context)
    (pods : list Pod) (shortCircuit : bool) (w : World E) :
  map fst (runAll s ctx pods w) = map pod_Name pods /\
  (exists evs,
     calls (runPods s ctx pods shortCircuit w).2 = calls w ++ evs /\
     submitted evs = map fst (effective shortCircuit (runAll s ctx pods w))) /\
  (runPods s ctx pods shortCircuit w).1
  = NewAggregate (omap snd (effective shortCircuit (runAll s ctx pods w))) /\
  effective false (runAll s ctx pods w) = runAll s ctx pods w /\
  (exists k, effective true (runAll s ctx pods w) = take k (runAll s ctx pods w)) /\
  (forall (i : nat) n err,
     effective true (runAll s ctx pods w) !! i = Some (n, Some err) ->
     S i = length (effective true (runAll s ctx pods w))) /\
  (omap snd (effective true (runAll s ctx pods w)) = [] ->
   effective true (runAll s ctx pods w) = runAll s ctx pods w) /\
  (forall env w0, runPhases s ctx env w0 = threePhases s ctx env w0).
Proof.
  destruct (runPods_spec s ctx pods shortCircuit w) as [Hres (evs & Hcalls & Hsub & _)].
  split; [apply runAll_names|].
  split; [exists evs; split; assumption|].
  split; [exact Hres|].
  split; [reflexivity|].
  split; [apply uptoFirstFailure_prefix|].
  split; [apply uptoFirstFailure_failure_last|].
  split; [apply uptoFirstFailure_no_failure|].
  intros env w0. apply runPhases_threePhases.
Qed.

(** C5: when the batch of a phase is built, the result of the phase is
    the aggregate of the error of the runs, followed, if the context of
    the phase is done after the runs, by the error of the bulk deletion
    (unless it is "not found") and by the error "cancelled". The phase
    issues one bulk deletion of the pods labelled with the test, under
    the cleanup context, if the context is done, and none otherwise. The
    cleanup context is never done, and the error of the runs is not the
    error "cancelled". *)
Theorem runSteps_cancellation (s : multiStageTestStep) (ctx : Context)
    (steps : list LiteralTestStep) (env : list EnvVar) (shortCircuit hasPrevErrs : bool)
    (w : World E) (pods : list Pod) :
  generatePods s steps env hasPrevErrs (ext w) = Normal (pods, None) ->
  exists w' evs,
    runSteps s ctx steps env shortCircuit hasPrevErrs w
    = Normal
        (NewAggregate
           (errorList (runPods s ctx pods shortCircuit w).1 ++
            if ctx_Done ctx (ext (runPods s ctx pods shortCircuit w).2)
            then cleanupErrors s
                   (client_DeleteAllOf cleanupCtx (job_Namespace (jobSpec s))
                      [(MultiStageTestLabel, name s)]
                      (ext (runPods s ctx pods shortCircuit w).2)).1
                 ++ [Errorf "cancelled"]
            else []), w') /\
    calls w' = calls w ++ evs /\
    bulkDeletes evs
    = (if ctx_Done ctx (ext (runPods s ctx pods shortCircuit w).2)
       then [cleanupCall s] else []) /\
    (forall e, ctx_Done (cleanupCall s).1.1 e = false) /\
    Errorf "cancelled" ∉ errorList (runPods s ctx pods shortCircuit w).1.
Proof.
  intros Hgen.
  destruct (runSteps_built s ctx steps env shortCircuit hasPrevErrs w pods Hgen)
    as (w' & evs & Heq & Hcalls & _ & _ & Hdel).
  exists w', evs. split; [exact Heq|]. split; [exact Hcalls|]. split; [exact Hdel|].
  split; [reflexivity|].
  destruct (runPods_spec s ctx pods shortCircuit w) as [-> _].
  destruct (omap snd _); simpl; [apply not_elem_of_nil|].
  intros Hin. apply list_elem_of_singleton in Hin. discriminate.
Qed.

End Phases.

Module PhaseExamples.

Example all_phases_succeed :
  summary (run three Caller (world (sim [] [])))
  = Some (["e2e-setup"; "e2e-run"; "e2e-gather"], false, []).
Proof. reflexivity. Qed.

Example pre_fails_test_is_skipped_post_runs :
  summary (run three Caller (world (sim ["e2e-setup"] [])))
  = Some (["e2e-setup"; "e2e-gather"], true, []).
Proof. reflexivity. Qed.

Example test_fails_post_runs :
  summary (run three Caller (world (sim ["e2e-run"] [])))
  = Some (["e2e-setup"; "e2e-run"; "e2e-gather"], true, []).
Proof. reflexivity. Qed.

Example cancelled_during_test :
  summary (run three Caller (world (sim [] ["e2e-run"])))
  = Some (["e2e-setup"; "e2e-run"; "e2e-gather"], true,
          [(Background, "ci-op-1", [(MultiStageTestLabel, "e2e")])]).
Proof. reflexivity. Qed.

Example pre_short_circuits_post_does_not :
  summary (run abc Caller (world (sim ["e2e-b"] [])))
  = Some (["e2e-a"; "e2e-b"; "e2e-a"; "e2e-b"; "e2e-c"], true, []).
Proof. reflexivity. Qed.

Lemma run_phases_witness :
  exists r w2,
    runSteps three Background (post three) [] false true (world (sim [] []))
    = Normal (r, w2) /\
    exists evs,
      calls w2 = calls (world (sim [] [])) ++ evs /\
      Forall (eq Background) (waitContexts evs) /\
      bulkDeletes evs = [].
Proof.
  eexists _, _. split; [vm_compute; reflexivity|].
  eapply (proj2 (proj2 (run_phases three Caller (world (sim [] []))))
            [] true (world (sim [] []))).
  vm_compute. reflexivity.
Defined.

Lemma runPods_order_and_short_circuit_witness :
  effective true (runAll abc Caller abcPods (world (sim ["e2e-b"] []))) !! 1%nat
  = Some ("e2e-b", Some (Wrapf
      (Str.quote "e2e" +:+ " pod " +:+ Str.quote "e2e-b" +:+ " failed: ")
      (Errorf "the pod failed")
      (Str.nl +:+
       "Link to step on registry info site: https://steps.ci.openshift.org/reference/b"
       +:+ Str.nl +:+
       "Link to job on registry info site: https://steps.ci.openshift.org/job?org=org&repo=repo&branch=main&test=e2e"))) /\
  2%nat = length (effective true (runAll abc Caller abcPods (world (sim ["e2e-b"] [])))).
Proof.
  split; [vm_compute; reflexivity|].
  eapply (proj1 (proj2 (proj2 (proj2 (proj2 (proj2
            (runPods_order_and_short_circuit abc Caller abcPods true
               (world (sim ["e2e-b"] [])))))))) 1%nat).
  vm_compute. reflexivity.
Defined.

Lemma runSteps_cancellation_witness :
  exists w' evs,
    runSteps three Caller (test three) [] true false cancelledWorld
    = Normal
        (NewAggregate
           (errorList (runPods three Caller testPods true cancelledWorld).1 ++
            if ctx_Done Caller (ext (runPods three Caller testPods true cancelledWorld).2)
            then cleanupErrors three
                   (client_DeleteAllOf cleanupCtx (job_Namespace (jobSpec three))
                      [(MultiStageTestLabel, name three)]
                      (ext (runPods three Caller testPods true cancelledWorld).2)).1
                 ++ [Errorf "cancelled"]
            else []), w') /\
    calls w' = calls cancelledWorld ++ evs /\
    bulkDeletes evs
    = (if ctx_Done Caller (ext (runPods three Caller testPods true cancelledWorld).2)
       then [cleanupCall three] else []) /\
    (forall e : Sim, ctx_Done (cleanupCall three).1.1 e = false) /\
    Errorf "cancelled" ∉ errorList (runPods three Caller testPods true cancelledWorld).1.
Proof.
  apply (@runSteps_cancellation collaborators Sim cluster three Caller (test three) []
           true false cancelledWorld testPods).
  vm_compute. reflexivity.
Defined.

(** In that run the context is done after the pod of the Test phase. *)
Example cancelled_after_test_pod :
  ctx_Done Caller (ext (runPods three Caller testPods true cancelledWorld).2) = true.
Proof. reflexivity. Qed.

End PhaseExamples.

(** ** Access provisioning *)

Section Tolerance.
Context `{Client E}.

(** [setupRBAC] never returns an "already exists" error. *)
Lemma setupRBAC_tolerates (s : multiStageTestStep) (w : World E) (err : error) :
  (setupRBAC s w).1 = Some err -> IsAlreadyExists err = false.
Proof.
  unfold setupRBAC, bindM, call, retM. simpl.
  destruct (client_Create TODO (ServiceAccountObject (rbacMeta s)) (ext w))
    as [[e1|] st1]; simpl.
  - destruct (IsAlreadyExists e1) eqn:He1; simpl; [|now intros [= <-]].
    destruct (client_Create TODO (rbacRole s) st1) as [[e2|] st2]; simpl.
    + destruct (IsAlreadyExists e2) eqn:He2; simpl; [|now intros [= <-]].
      destruct (client_Create TODO (rbacBinding s) st2) as [[e3|] st3]; simpl;
        [|discriminate].
      destruct (IsAlreadyExists e3) eqn:He3; simpl; [discriminate | now intros [= <-]].
    + destruct (client_Create TODO (rbacBinding s) st2) as [[e3|] st3]; simpl;
        [|discriminate].
      destruct (IsAlreadyExists e3) eqn:He3; simpl; [discriminate | now intros [= <-]].
  - destruct (client_Create TODO (rbacRole s) st1) as [[e2|] st2]; simpl.
    + destruct (IsAlreadyExists e2) eqn:He2; simpl; [|now intros [= <-]].
      destruct (client_Create TODO (rbacBinding s) st2) as [[e3|] st3]; simpl;
        [|discriminate].
      destruct (IsAlreadyExists e3) eqn:He3; simpl; [discriminate | now intros [= <-]].
    + destruct (client_Create TODO (rbacBinding s) st2) as [[e3|] st3]; simpl;
        [|discriminate].
      destruct (IsAlreadyExists e3) eqn:He3; simpl; [discriminate | now intros [= <-]].
Qed.

(** The creation of the mirrored credentials never returns an "already
    exists" error. *)
Lemma createCredentials_create_tolerates (secrets : list (string * Secret)) :
  forall (w : World E) (err : error),
    (createCredentials_create secrets w).1 = Some err ->
    exists cause,
      err = Wrapf "could not create source credential: " cause "" /\
      IsAlreadyExists cause = false.
Proof.
  induction secrets as [|[n secret] secrets IH]; intros w err; simpl; [discriminate|].
  unfold bindM, call. simpl.
  destruct (client_Create TODO (SecretObject secret) (ext w)) as [[e1|] st1]; simpl.
  - destruct (IsAlreadyExists e1) eqn:He1; simpl; [apply IH|].
    intros [= <-]. eauto.
  - apply IH.
Qed.

(** [createSecret] never returns the "not found" error of the deletion:
    its error is the one of the creation, or another error of the
    deletion. *)
Lemma createSecret_tolerates (s : multiStageTestStep) (ctx : Context) (w : World E)
    (err : error) :
  (createSecret s ctx w).1 = Some err ->
  (exists cause,
     err = Wrapf ("cannot delete secret " +:+ Str.quote (name s) +:+ ": ") cause "" /\
     IsNotFound cause = false) \/
  (exists st, (client_Create ctx (SecretObject (sharedSecret s)) st).1 = Some err).
Proof.
  unfold createSecret, bindM, call, retM. simpl.
  destruct (client_Delete ctx (SecretObject (sharedSecret s)) (ext w)) as [[e1|] st1]; simpl.
  - destruct (IsNotFound e1) eqn:He1; simpl.
    + destruct (client_Create ctx _ st1) as [r st2] eqn:Hc. simpl.
      intros ->. right. exists st1. now rewrite Hc.
    + intros [= <-]. left. eauto.
  - destruct (client_Create ctx _ st1) as [r st2] eqn:Hc. simpl.
    intros ->. right. exists st1. now rewrite Hc.
Qed.

End Tolerance.

(** *** Provisioning twice, on the object store *)

Section StoreFacts.
#[local] Existing Instance Store.client.
Implicit Types (st : Store.t) (w : World Store.t).

Lemma store_Create_result (ctx : Context) (obj : Object) st :
  check (Store.Create ctx obj st).1 = true /\
  st ⊆ (Store.Create ctx obj st).2 /\
  is_Some ((Store.Create ctx obj st).2 !! storeKey obj) /\
  (is_Some (st !! storeKey obj) -> (Store.Create ctx obj st).2 = st).
Proof.
  unfold Store.Create. destruct (st !! storeKey obj) eqn:Hk; simpl.
  - repeat split; eauto.
  - repeat split.
    + now apply insert_subseteq.
    + rewrite lookup_insert_eq. eauto.
    + intros [? ?]. discriminate.
Qed.

Lemma createSecret_store (s : multiStageTestStep) (ctx : Context) w :
  (createSecret s ctx w).1 = None /\
  ext (createSecret s ctx w).2
  = <[("Secret", job_Namespace (jobSpec s), name s) := SecretObject (sharedSecret s)]>
      (ext w).
Proof.
  unfold createSecret, bindM, call, retM. simpl.
  unfold Store.Delete, Store.Create, storeKey. simpl.
  destruct (ext w !! ("Secret", job_Namespace (jobSpec s), name s)) eqn:Hk; simpl.
  - rewrite lookup_delete_eq. simpl. split; [reflexivity|].
    now rewrite insert_delete_eq.
  - rewrite Hk. simpl. split; reflexivity.
Qed.

Lemma createCredentials_read_store (s : multiStageTestStep)
    (credentials : list CredentialReference) :
  forall (toCreate : gmap string Secret) w,
    ext (createCredentials_read s credentials toCreate w).2 = ext w /\
    match (createCredentials_read s credentials toCreate w).1 with
    | inl m =>
        forallb (foundIn (ext w)) credentials = true /\
        (forall n, is_Some (m !! n) <->
                   is_Some (toCreate !! n) \/ n ∈ map createCredentials_name credentials) /\
        (filedUnder (job_Namespace (jobSpec s)) toCreate ->
         filedUnder (job_Namespace (jobSpec s)) m)
    | inr _ => forallb (foundIn (ext w)) credentials = false
    end.
Proof.
  induction credentials as [|c cs IH]; intros toCreate w.
  - simpl. split; [reflexivity|]. repeat split; try tauto.
    + intros [?|Hin]; [assumption|]. now apply elem_of_nil in Hin.
  - cbn [createCredentials_read]. unfold bindM, call. simpl.
    unfold Store.Get, foundIn. simpl.
    destruct (ext w !! ("Secret", cred_Namespace c, cred_Name c)) as [[| | |raw|]|] eqn:Hk;
      simpl; try (split; reflexivity).
    match goal with
    | |- context [createCredentials_read s cs ?acc ?w1] =>
        destruct (IH acc w1) as [Hext Hres];
        destruct (createCredentials_read s cs acc w1) as [[m|err] w2]
    end; simpl in *.
    + split; [exact Hext|]. destruct Hres as (Hall & Hdom & Hfiled).
      split; [exact Hall|]. split.
      * intros n. rewrite Hdom, elem_of_cons.
        destruct (decide (n = createCredentials_name c)) as [->|Hne].
        -- rewrite lookup_insert_eq. split; intros _; [right; left; reflexivity|].
           left. eauto.
        -- rewrite lookup_insert_ne by congruence. tauto.
      * intros Hacc. apply Hfiled. intros n secret.
        destruct (decide (createCredentials_name c = n)) as [<-|Hne].
        -- rewrite lookup_insert_eq. intros [= <-]. reflexivity.
        -- rewrite lookup_insert_ne by assumption. apply Hacc.
    + split; [exact Hext | exact Hres].
Qed.

Lemma createCredentials_create_store (secrets : list (string * Secret)) :
  forall w,
    (createCredentials_create secrets w).1 = None /\
    ext w ⊆ ext (createCredentials_create secrets w).2 /\
    (forall n secret,
       (n, secret) ∈ secrets ->
       is_Some (ext (createCredentials_create secrets w).2 !! storeKey (SecretObject secret)))
    /\
    ((forall n secret,
        (n, secret) ∈ secrets -> is_Some (ext w !! storeKey (SecretObject secret))) ->
     ext (createCredentials_create secrets w).2 = ext w).
Proof.
  induction secrets as [|[n secret] secrets IH]; intros w.
  - simpl. repeat split; try reflexivity. intros ? ? Hin. now apply elem_of_nil in Hin.
  - cbn [createCredentials_create]. unfold bindM, call. simpl.
    destruct (store_Create_result TODO (SecretObject secret) (ext w))
      as (Hcheck & Hmono & Hpresent & Hsame).
    destruct (Store.Create TODO (SecretObject secret) (ext w)) as [r st1]. simpl in *.
    assert (match r with
            | Some err =>
                if negb (IsAlreadyExists err)
                then retM (Some (Wrapf "could not create source credential: " err ""))
                else createCredentials_create secrets
            | None => createCredentials_create secrets
            end = createCredentials_create secrets) as ->.
    { destruct r as [err|]; [|reflexivity]. simpl in Hcheck. now rewrite Hcheck. }
    match goal with
    | |- context [createCredentials_create secrets ?w1] =>
        destruct (IH w1) as (Hnone & Hsub & Hall & Hid)
    end. simpl in *.
    split; [exact Hnone|]. split; [etrans; eassumption|]. split.
    + intros n' secret' Hin. apply elem_of_cons in Hin as [[= -> ->]|Hin].
      * destruct Hpresent as [o Ho]. exists o. eapply lookup_weaken; eassumption.
      * eapply Hall, Hin.
    + intros Hhave. rewrite Hid.
      * apply Hsame. eapply Hhave. left.
      * intros n' secret' Hin. rewrite Hsame.
        -- eapply Hhave. right. exact Hin.
        -- eapply Hhave. left.
Qed.

Lemma setupRBAC_store (s : multiStageTestStep) w :
  (setupRBAC s w).1 = None /\
  ext w ⊆ ext (setupRBAC s w).2 /\
  (is_Some (ext w !! ("ServiceAccount", job_Namespace (jobSpec s), name s)) ->
   is_Some (ext w !! ("Role", job_Namespace (jobSpec s), name s)) ->
   is_Some (ext w !! ("RoleBinding", job_Namespace (jobSpec s), name s)) ->
   ext (setupRBAC s w).2 = ext w) /\
  is_Some (ext (setupRBAC s w).2 !! ("ServiceAccount", job_Namespace (jobSpec s), name s)) /\
  is_Some (ext (setupRBAC s w).2 !! ("Role", job_Namespace (jobSpec s), name s)) /\
  is_Some (ext (setupRBAC s w).2 !! ("RoleBinding", job_Namespace (jobSpec s), name s)).
Proof.
  unfold setupRBAC, bindM, call, retM. simpl.
  destruct (store_Create_result TODO (ServiceAccountObject (rbacMeta s)) (ext w))
    as (Hc1 & Hm1 & Hp1 & Hs1).
  destruct (Store.Create TODO (ServiceAccountObject (rbacMeta s)) (ext w)) as [r1 st1].
  simpl in *. rewrite Hc1. simpl.
  destruct (store_Create_result TODO (rbacRole s) st1) as (Hc2 & Hm2 & Hp2 & Hs2).
  destruct (Store.Create TODO (rbacRole s) st1) as [r2 st2].
  simpl in *. rewrite Hc2. simpl.
  destruct (store_Create_result TODO (rbacBinding s) st2) as (Hc3 & Hm3 & Hp3 & Hs3).
  destruct (Store.Create TODO (rbacBinding s) st2) as [r3 st3].
  simpl in *. rewrite Hc3. simpl.
  split; [reflexivity|]. split; [etrans; [|eassumption]; etrans; eassumption|].
  split; [|split; [|split]].
  - intros H1 H2 H3. rewrite Hs3, Hs2, Hs1; try assumption; try reflexivity.
    + rewrite Hs1 by assumption. assumption.
    + rewrite Hs2, Hs1; try assumption. rewrite Hs1 by assumption. assumption.
  - destruct Hp1 as [o Ho]. exists o.
    eapply lookup_weaken; [|exact Hm3]. eapply lookup_weaken; eassumption.
  - destruct Hp2 as [o Ho]. exists o. eapply lookup_weaken; eassumption.
  - exact Hp3.
Qed.

Lemma foundIn_weaken st st' (c : CredentialReference) :
  st ⊆ st' -> foundIn st c = true -> foundIn st' c = true.
Proof.
  unfold foundIn. intros Hsub.
  destruct (st !! ("Secret", cred_Namespace c, cred_Name c)) as [o|] eqn:Hk; [|discriminate].
  now rewrite (lookup_weaken _ _ _ _ Hk Hsub).
Qed.

End StoreFacts.

Section StoreProvisioning.
#[local] Existing Instance Store.client.
Implicit Types (st : Store.t) (w : World Store.t).

Lemma createCredentials_store (s : multiStageTestStep) w :
  if forallb (foundIn (ext w)) (allCredentials s)
  then
    (createCredentials s w).1 = None /\
    ext w ⊆ ext (createCredentials s w).2 /\
    (forall n, n ∈ map createCredentials_name (allCredentials s) ->
               is_Some (ext (createCredentials s w).2
                          !! ("Secret", job_Namespace (jobSpec s), n))) /\
    ((forall n, n ∈ map createCredentials_name (allCredentials s) ->
                is_Some (ext w !! ("Secret", job_Namespace (jobSpec s), n))) ->
     ext (createCredentials s w).2 = ext w)
  else (createCredentials s w).1 <> None.
Proof.
  unfold createCredentials, bindM. fold (allCredentials s).
  destruct (createCredentials_read_store s (allCredentials s) ∅ w) as [Hext Hres].
  destruct (createCredentials_read s (allCredentials s) ∅ w) as [[m|err] wB];
    simpl in *.
  - destruct Hres as (-> & Hdom & Hfiled).
    assert (filedUnder (job_Namespace (jobSpec s)) m) as Hm.
    { apply Hfiled. intros n secret Hn. rewrite lookup_empty in Hn. discriminate. }
    destruct (createCredentials_create_store (map_to_list m) wB)
      as (Hnone & Hsub & Hall & Hid).
    rewrite Hext in *.
    split; [exact Hnone|]. split; [exact Hsub|]. split.
    + intros n Hn.
      assert (is_Some (m !! n)) as [secret Hs].
      { apply Hdom. right. exact Hn. }
      rewrite <- (Hm n secret Hs). apply (Hall n secret).
      apply elem_of_map_to_list. exact Hs.
    + intros Hhave. apply Hid. intros n secret Hin.
      apply elem_of_map_to_list in Hin.
      rewrite (Hm n secret Hin). apply Hhave.
      assert (is_Some (m !! n)) as Hs by eauto.
      apply Hdom in Hs as [[? Hs]|Hs]; [|exact Hs].
      rewrite lookup_empty in Hs. discriminate.
  - rewrite Hres. discriminate.
Qed.

(** Provisioning on the store: it succeeds exactly when every source
    secret is found once the shared secret has been reset; it then only
    adds objects, leaves everything it provisions in the store, and
    changes nothing if all that was there already. *)
Lemma provision_store (s : multiStageTestStep) (ctx : Context) w :
  if forallb
       (foundIn (<[("Secret", job_Namespace (jobSpec s), name s)
                   := SecretObject (sharedSecret s)]> (ext w)))
       (allCredentials s)
  then
    (provision s ctx w).1 = None /\
    <[("Secret", job_Namespace (jobSpec s), name s) := SecretObject (sharedSecret s)]>
      (ext w) ⊆ ext (provision s ctx w).2 /\
    provisioned s (ext (provision s ctx w).2) /\
    (provisioned s
       (<[("Secret", job_Namespace (jobSpec s), name s) := SecretObject (sharedSecret s)]>
          (ext w)) ->
     ext (provision s ctx w).2
     = <[("Secret", job_Namespace (jobSpec s), name s) := SecretObject (sharedSecret s)]>
         (ext w))
  else (provision s ctx w).1 <> None.
Proof.
  unfold provision, bindM.
  destruct (createSecret_store s ctx w) as [Hr1 HextA].
  destruct (createSecret s ctx w) as [r1 wA]. simpl in *. subst r1. rewrite <- HextA.
  pose proof (createCredentials_store s wA) as Hcred.
  destruct (forallb (foundIn (ext wA)) (allCredentials s)).
  - destruct Hcred as (Hr2 & HsubB & HallB & HidB).
    destruct (createCredentials s wA) as [r2 wB]. simpl in *. subst r2.
    destruct (setupRBAC_store s wB) as (Hr3 & HsubC & HidC & Hsa & Hrole & Hbinding).
    destruct (setupRBAC s wB) as [r3 wC]. simpl in *. subst r3. simpl.
    split; [reflexivity|]. split; [etrans; eassumption|]. split.
    + split; [|repeat split; assumption].
      intros n Hn. destruct (HallB n Hn) as [o Ho]. exists o.
      eapply lookup_weaken; eassumption.
    + intros (Hcreds & H1 & H2 & H3).
      assert (ext wB = ext wA) as HB by (apply HidB, Hcreds).
      rewrite HidC, HB; rewrite ?HB; try assumption; reflexivity.
  - destruct (createCredentials s wA) as [[err|] wB]; simpl in *; [discriminate|].
    now destruct Hcred.
Qed.

Lemma provisioned_weaken (s : multiStageTestStep) st st' :
  st ⊆ st' -> provisioned s st -> provisioned s st'.
Proof.
  intros Hsub (Hc & [o1 H1] & [o2 H2] & [o3 H3]). split; [|repeat split].
  - intros n Hn. destruct (Hc n Hn) as [o Ho]. exists o. eapply lookup_weaken; eassumption.
  - exists o1. eapply lookup_weaken; eassumption.
  - exists o2. eapply lookup_weaken; eassumption.
  - exists o3. eapply lookup_weaken; eassumption.
Qed.

(** C6: on the object store, provisioning a second time right after a
    provisioning that succeeded returns no error and leaves the store as
    the first one left it. On the store the three parts that tolerate a
    race never fail: resetting the shared secret, creating the mirrored
    credentials and creating the RBAC objects. With any client, an
    "already exists" error is never returned by the creation of the RBAC
    objects or of a mirrored credential, and a "not found" error of the
    deletion is never returned by the reset of the shared secret. *)
Theorem provision_idempotent (s : multiStageTestStep) (ctx ctx' : Context) w :
  (provision s ctx w).1 = None ->
  ((provision s ctx' (provision s ctx w).2).1 = None /\
   ext (provision s ctx' (provision s ctx w).2).2 = ext (provision s ctx w).2) /\
  ((forall w0, (createSecret s ctx w0).1 = None) /\
   (forall secrets w0, (createCredentials_create secrets w0).1 = None) /\
   (forall w0, (setupRBAC s w0).1 = None)) /\
  (forall E (C : Client E) (w0 : World E) err,
     (setupRBAC s w0).1 = Some err -> IsAlreadyExists err = false) /\
  (forall E (C : Client E) secrets (w0 : World E) err,
     (createCredentials_create secrets w0).1 = Some err ->
     exists cause,
       err = Wrapf "could not create source credential: " cause "" /\
       IsAlreadyExists cause = false) /\
  (forall E (C : Client E) (w0 : World E) err,
     (createSecret s ctx w0).1 = Some err ->
     (exists cause,
        err = Wrapf ("cannot delete secret " +:+ Str.quote (name s) +:+ ": ") cause "" /\
        IsNotFound cause = false) \/
     (exists e0 : E, (client_Create ctx (SecretObject (sharedSecret s)) e0).1 = Some err)).
Proof.
  intros Hfirst. split; [|split; [|split; [|split]]].
  - pose proof (provision_store s ctx w) as H1.
    destruct (forallb _ (allCredentials s)) eqn:Hfound; [|contradiction].
    destruct H1 as (_ & Hsub & Hprov & _).
    set (st1 := ext (provision s ctx w).2) in *.
    assert (<[("Secret", job_Namespace (jobSpec s), name s)
              := SecretObject (sharedSecret s)]> st1 = st1) as Hreset.
    { apply insert_id. eapply lookup_weaken; [|exact Hsub]. apply lookup_insert_eq. }
    pose proof (provision_store s ctx' (provision s ctx w).2) as H2.
    fold st1 in H2. rewrite Hreset in H2.
    assert (forallb (foundIn st1) (allCredentials s) = true) as Hfound2.
    { apply forallb_forall. intros c Hc.
      eapply foundIn_weaken; [exact Hsub|].
      eapply forallb_forall in Hfound; eassumption. }
    rewrite Hfound2 in H2. destruct H2 as (Hnone & _ & _ & Hid).
    split; [exact Hnone | apply Hid, Hprov].
  - split; [|split].
    + intros w0. apply createSecret_store.
    + intros secrets w0. apply createCredentials_create_store.
    + intros w0. apply setupRBAC_store.
  - intros E C w0 err. apply setupRBAC_tolerates.
  - intros E C secrets w0 err. apply createCredentials_create_tolerates.
  - intros E C w0 err. apply createSecret_tolerates.
Qed.

End StoreProvisioning.

Module ProvisionExample.
#[local] Existing Instance Store.client.

Lemma provision_idempotent_witness :
  (provision tested Caller (provision tested Caller before).2).1 = None /\
  ext (provision tested Caller (provision tested Caller before).2).2
  = ext (provision tested Caller before).2.
Proof.
  apply (proj1 (provision_idempotent tested Caller Caller before eq_refl)).
Defined.

(** The first provisioning leaves six objects: the donor secret, the
    shared secret, the mirrored credential and the three RBAC objects. *)
Example provisioned_objects : size (ext (provision tested Caller before).2) = 6%nat.
Proof. reflexivity. Qed.

(** Without the donor secret provisioning fails, the first time and the
    second time alike. *)
Example provision_without_donor :
  isSome (provision tested Caller nothing).1 = true /\
  isSome (provision tested Caller (provision tested Caller nothing).2).1 = true.
Proof. split; reflexivity. Qed.

End ProvisionExample.

